(** * log4go: template formatter and stream handlers

    A shallow embedding of [formatters.go] and [handlers.go].

    Go strings are byte sequences: they are modelled as [string] (one
    [ascii] per byte).  Go [int] values that carry bit-packed tokens are
    modelled as [Z]; indices and lengths as [nat].  A run-time panic is an
    explicit outcome. *)

From Stdlib Require Import ZArith List String Ascii Bool Arith Lia.
Import ListNotations.

Local Open Scope string_scope.
Local Open Scope nat_scope.
Local Open Scope list_scope.

(** String concatenation, Go's [+] on strings. *)
Infix "+++" := String.append (at level 60, right associativity).

(** ** Outcomes: a Go call either returns or panics *)

Inductive outcome (A : Type) : Type :=
| Ret (a : A)
| Panic (msg : string).
Arguments Ret {A} a.
Arguments Panic {A} msg.

Definition bind {A B : Type} (m : outcome A) (k : A -> outcome B) : outcome B :=
  match m with
  | Ret a => k a
  | Panic msg => Panic msg
  end.

Notation "x <- m ;; k" := (bind m (fun x => k))
  (at level 61, m at next level, right associativity).
Notation "' p <- m ;; k" := (bind m (fun x => match x with p => k end))
  (at level 61, p pattern, m at next level, right associativity).

(** The Go [error] values the two files produce or compare against. *)
Inductive error : Type :=
| ErrorNotSet                       (* var ErrorNotSet = fmt.Errorf("notset error log") *)
| Errorf (msg : string)             (* any other fmt.Errorf value *)
| PathError (op path : string)      (* os.OpenFile / os.Stat failure *)
| ErrInvalid                        (* os.ErrInvalid: method on a nil *os.File *)
| ErrClosed.                        (* os.ErrClosed: file already closed *)

(** ** Go string helpers *)

Module GoString.

Definition len (s : string) : nat := String.length s.

(** [s[lo:hi]] *)
Definition slice (s : string) (lo hi : nat) : string := substring lo (hi - lo) s.

Fixpoint repeat_char (c : ascii) (n : nat) : string :=
  match n with
  | O => EmptyString
  | S n' => String c (repeat_char c n')
  end.

Definition is_digit (c : ascii) : bool :=
  let n := nat_of_ascii c in (48 <=? n) && (n <=? 57).

Fixpoint all_digits (s : string) : bool :=
  match s with
  | EmptyString => true
  | String c s' => is_digit c && all_digits s'
  end.

Fixpoint contains_char (c : ascii) (s : string) : bool :=
  match s with
  | EmptyString => false
  | String d s' => (d =? c)%char || contains_char c s'
  end.

(** [strings.Split(s, sep)] for a one-byte separator. *)
Fixpoint split_on (sep : ascii) (s : string) : list string :=
  match s with
  | EmptyString => [EmptyString]
  | String c s' =>
      if (c =? sep)%char then EmptyString :: split_on sep s'
      else match split_on sep s' with
           | [] => [String c EmptyString]
           | p :: ps => String c p :: ps
           end
  end.

(** [strings.Join(parts, "")] *)
Definition join (parts : list string) : string := String.concat EmptyString parts.

(** *** utf8.RuneCountInString

    [fmt] pads a [%Ns] verb by runes, not bytes.  The counter follows the
    library's decoder: an ASCII byte, or a well-formed 2, 3 or 4 byte
    sequence, is one rune; any other byte counts as one rune by itself. *)

Definition in_range (lo hi : nat) (c : ascii) : bool :=
  let n := nat_of_ascii c in (lo <=? n) && (n <=? hi).

Definition cont (c : ascii) : bool := in_range 128 191 c.   (* locb..hicb *)

(** The size the lead byte announces and the range accepted for the second
    byte ([first] and [acceptRanges] of the library); [None] is [xx]. *)
Definition lead (c : ascii) : option (nat * (nat * nat)) :=
  let n := nat_of_ascii c in
  if n <? 194 then None
  else if n <=? 223 then Some (2, (128, 191))
  else if n =? 224 then Some (3, (160, 191))
  else if n <=? 236 then Some (3, (128, 191))
  else if n =? 237 then Some (3, (128, 159))
  else if n <=? 239 then Some (3, (128, 191))
  else if n =? 240 then Some (4, (144, 191))
  else if n <=? 243 then Some (4, (128, 191))
  else if n =? 244 then Some (4, (128, 143))
  else None.

Fixpoint RuneCountInString (s : string) : nat :=
  match s with
  | EmptyString => 0
  | String c tl =>
      if nat_of_ascii c <? 128 then S (RuneCountInString tl)
      else
        match lead c with
        | None => S (RuneCountInString tl)
        | Some (size, (lo, hi)) =>
            match tl with
            | String c1 tl1 =>
                if negb (in_range lo hi c1) then S (RuneCountInString tl)
                else if size =? 2 then S (RuneCountInString tl1)
                else
                  match tl1 with
                  | String c2 tl2 =>
                      if negb (cont c2) then S (RuneCountInString tl)
                      else if size =? 3 then S (RuneCountInString tl2)
                      else
                        match tl2 with
                        | String c3 tl3 =>
                            if negb (cont c3) then S (RuneCountInString tl)
                            else S (RuneCountInString tl3)
                        | EmptyString => S (RuneCountInString tl)
                        end
                  | EmptyString => S (RuneCountInString tl)
                  end
            | EmptyString => S (RuneCountInString tl)
            end
        end
  end.

(** [strconv.Atoi] on a run of decimal digits (the only input the
    compiler gives it); the result saturates at the largest [int], the
    range error being discarded by the caller. *)
Definition max_int : Z := 9223372036854775807.

Fixpoint digits_value (acc : Z) (s : string) : Z :=
  match s with
  | EmptyString => acc
  | String c s' => digits_value (10 * acc + (Z.of_nat (nat_of_ascii c) - 48)) s'
  end.

Definition Atoi (s : string) : Z :=
  let v := digits_value 0 s in
  if (max_int <? v)%Z then max_int else v.

(** Decimal rendering of a non-negative integer ([%d]). *)
Definition digit_char (d : nat) : ascii := ascii_of_nat (48 + d).

Fixpoint dec_digits (fuel n : nat) (acc : string) : string :=
  match fuel with
  | O => acc
  | S fuel' =>
      let acc' := String (digit_char (n mod 10)) acc in
      if n / 10 =? 0 then acc' else dec_digits fuel' (n / 10) acc'
  end.

Definition itoa (z : Z) : string :=
  let n := Z.abs_nat z in
  let body := dec_digits (S n) n EmptyString in
  if (z <? 0)%Z then String "-"%char body else body.

(** [%Nd]: padded with spaces on the left up to [wid] bytes. *)
Definition pad_d (wid : nat) (z : Z) : string :=
  let s := itoa z in repeat_char " "%char (wid - len s) +++ s.

(** [%0Nd]: the sign first, then zeros up to [wid] bytes in all. *)
Definition pad_0d (wid : nat) (z : Z) : string :=
  let n := Z.abs_nat z in
  let body := dec_digits (S n) n EmptyString in
  if (z <? 0)%Z
  then String "-"%char (repeat_char "0"%char (wid - 1 - len body) +++ body)
  else repeat_char "0"%char (wid - len body) +++ body.

End GoString.
Import GoString.

(** ** Records and levels *)

(** Modelled from the spec: the [Level] type and its constants are declared
    outside the two source files.  The spec names the sentinel [NOTSET] and
    the levels of the default colour map; [NOTSET] is the zero value of the
    type ([Level()] "returns the level previously set (or NOTSET if not
    set)"). *)
Inductive Level : Type := NOTSET | DEBUG | INFO | WARNING | ERROR | FATAL.

Definition Level_eqb (a b : Level) : bool :=
  match a, b with
  | NOTSET, NOTSET | DEBUG, DEBUG | INFO, INFO
  | WARNING, WARNING | ERROR, ERROR | FATAL, FATAL => true
  | _, _ => false
  end.

(** The parts of a [time.Time] that [formatTime] reads. *)
Record Time : Type := mkTime {
  Year : Z; Month : Z; Day : Z;
  Hour : Z; Minute : Z; Second : Z;
  Nanosecond : Z
}.

(** Modelled from the spec: [Record] is declared outside the two source
    files; its fields are the four the formatter reads.  ([Record] is a
    reserved word here: the type is [Rec.t], its fields [Rec.Time],
    [Rec.Name], [Rec.Level] and [Rec.Message].) *)
Module Rec.
Record t : Type := mk {
  Time : Time;
  Name : string;
  Level : Level;
  Message : string
}.
End Rec.

(** The zero value of [Record], which a receive on a closed channel yields. *)
Definition zeroRecord : Rec.t :=
  Rec.mk (mkTime 1 1 1 0 0 0 0) "" NOTSET "".

(** ** The template compiler *)

(** An element of [formatTokens []interface{}]: a [string] or an [int]. *)
Inductive token : Type :=
| TStr (s : string)
| TInt (n : Z).

Definition tfTime : Z := 0.
Definition tfTimeMilliseconds : Z := 1.
Definition tfName : Z := 2.
Definition tfBaseName : Z := 3.
Definition tfLevel : Z := 4.
Definition tfMessage : Z := 5.

Definition tfFieldWidth : Z := 0x100.
Definition tfFieldWidthMask : Z := 0xff00.
Definition tfFieldWidthShift : Z := 8.

Definition tfAlignRight : Z := 0x10000.
Definition tfAlignLeft : Z := 0.

Definition tokenToValue (name : string) : option Z :=
  if (name =? "time")%string then Some tfTime
  else if (name =? "timems")%string then Some tfTimeMilliseconds
  else if (name =? "name")%string then Some tfName
  else if (name =? "basename")%string then Some tfBaseName
  else if (name =? "level")%string then Some tfLevel
  else if (name =? "message")%string then Some tfMessage
  else None.

Module Regexp.

(** [templatePtn = \{[^}]+\}], used through [FindAllStringIndex(s, -1)]:
    the leftmost matches, none overlapping, as byte offsets [(start, end)].

    The scan reads the input once.  [opened] is the offset of the "{" a
    match is being attempted from.  A "}" closes the match when at least one
    byte lies between; "{}" matches nothing and the search goes on after
    the "{".  Any other byte, a further "{" included, belongs to
    [[^}]+]. *)
Fixpoint templatePtn_scan (s : string) (pos : nat) (opened : option nat)
  : list (nat * nat) :=
  match s with
  | EmptyString => []
  | String c s' =>
      match opened with
      | None =>
          if (c =? "{")%char then templatePtn_scan s' (S pos) (Some pos)
          else templatePtn_scan s' (S pos) None
      | Some start =>
          if (c =? "}")%char then
            if S start <? pos
            then (start, S pos) :: templatePtn_scan s' (S pos) None
            else templatePtn_scan s' (S pos) None
          else templatePtn_scan s' (S pos) (Some start)
      end
  end.

Definition templatePtn_FindAllStringIndex (s : string) : list (nat * nat) :=
  templatePtn_scan s 0 None.

(** [templateSpecPtn = ^\{([^}]+?)(([<>])(\d+))?\}$], used through
    [FindStringSubmatch]: [nil] when the item does not match, else the five
    strings [whole; 1; 2; 3; 4].

    Group 1 is lazy: it stops at the first offset (past its first byte)
    from which the rest of the item is an alignment sign followed by
    digits up to the closing "}", and runs to the "}" when there is no
    such offset. *)
Definition width_suffix (s : string) : option (string * string) :=
  match s with
  | String c ds =>
      if ((c =? "<")%char || (c =? ">")%char)
         && negb (ds =? "")%string && all_digits ds
      then Some (String c EmptyString, ds)
      else None
  | EmptyString => None
  end.

Fixpoint lazy_group (s : string) : string * (string * string) :=
  match width_suffix s with
  | Some (a, w) => (EmptyString, (a, w))
  | None =>
      match s with
      | EmptyString => (EmptyString, (EmptyString, EmptyString))
      | String c s' =>
          let '(t, aw) := lazy_group s' in (String c t, aw)
      end
  end.

(** The item without its last byte when that byte is "}". *)
Fixpoint strip_close (s : string) : option string :=
  match s with
  | EmptyString => None
  | String c EmptyString => if (c =? "}")%char then Some EmptyString else None
  | String c s' =>
      match strip_close s' with
      | Some t => Some (String c t)
      | None => None
      end
  end.

Definition templateSpecPtn_FindStringSubmatch (item : string)
  : option (list string) :=
  match item with
  | String c rest =>
      if (c =? "{")%char then
        match strip_close rest with
        | Some (String c1 body) =>
            if contains_char "}" (String c1 body) then None
            else
              let '(t, (a, w)) := lazy_group body in
              Some [item; String c1 t; a +++ w; a; w]
        | _ => None
        end
      else None
  | EmptyString => None
  end.

End Regexp.
Import Regexp.

(** [spec[i]] on the result of [FindStringSubmatch]: indexing [nil], or past
    the end, panics. *)
Definition index_submatch (spec : option (list string)) (i : nat) : outcome string :=
  match spec with
  | None => Panic "index out of range"
  | Some l =>
      match nth_error l i with
      | Some s => Ret s
      | None => Panic "index out of range"
      end
  end.

(** [map[Level]string]; the nil map is the empty list. *)
Definition level_map : Type := list (Level * string).

Fixpoint level_lookup (m : level_map) (l : Level) : option string :=
  match m with
  | [] => None
  | (k, v) :: m' => if Level_eqb k l then Some v else level_lookup m' l
  end.

Record TemplateFormatter : Type := mkTemplateFormatter {
  formatString : string;
  formatTokens : list token;
  levelColoring : level_map;
  processMessage : string -> string -> string
}.

Definition defaultProcessMessage (m _c : string) : string := m.

Definition set_formatTokens (f : TemplateFormatter) (tokens : list token)
  : TemplateFormatter :=
  mkTemplateFormatter (formatString f) tokens (levelColoring f) (processMessage f).

(** [fmt.Errorf("invalid format template string: '%s'", template)] *)
Definition invalid_template (template : string) : error :=
  Errorf ("invalid format template string: '" +++ template +++ "'").

(** [fmt.Errorf("unknown format template token: '%s'", token)] *)
Definition unknown_token (tok : string) : error :=
  Errorf ("unknown format template token: '" +++ tok +++ "'").

(** The [if len(alignment) > 0 && len(width) > 0] block of the loop of
    [SetFormat]: the tokens after it.  In [tfFieldWidth+(w-1)<<tfFieldWidthShift]
    the shift binds tighter than the sum. *)
Definition width_tokens (alignment width : string) (tokens : list token)
  : list token :=
  if (0 <? len alignment) && (0 <? len width) then
    let w := Atoi width in
    if (0 <? w)%Z then
      let w := if (254 <? w)%Z then 254%Z else w in
      let tokens :=
        tokens ++ [TInt (tfFieldWidth + Z.shiftl (w - 1) tfFieldWidthShift)] in
      if (alignment =? ">")%string
      then tokens ++ [TInt tfAlignRight]
      else tokens
    else tokens
  else tokens.

(** The body of the [for _, tag := range m] loop of [SetFormat]; an error
    return leaves the loop with [inl]. *)
Fixpoint SetFormat_loop (template : string) (m : list (nat * nat))
         (last : nat) (tokens : list token) : outcome (error + list token) :=
  match m with
  | [] => Ret (inr tokens)
  | (start, end_) :: m' =>
      let tokens :=
        if last <? start
        then tokens ++ [TStr (slice template last start)]   (* part before the token *)
        else tokens in
      let last := end_ in
      let item := slice template start end_ in
      let spec := templateSpecPtn_FindStringSubmatch item in
      tok <- index_submatch spec 1 ;;
      alignment <- index_submatch spec 3 ;;
      width <- index_submatch spec 4 ;;
      let tokens := width_tokens alignment width tokens in
      match tokenToValue tok with
      | None => Ret (inl (unknown_token tok))
      | Some value => SetFormat_loop template m' last (tokens ++ [TInt value])
      end
  end.

(** [SetFormat] mutates the formatter it is called on and returns an error;
    the model returns the formatter after the call with the error. *)
Definition SetFormat (f : TemplateFormatter) (template : string)
  : outcome (TemplateFormatter * option error) :=
  let m := templatePtn_FindAllStringIndex template in
  if List.length m =? 0 then
    Ret (f, Some (invalid_template template))
  else
    r <- SetFormat_loop template m 0 [] ;;
    match r with
    | inl err => Ret (f, Some err)
    | inr tokens => Ret (set_formatTokens f tokens, None)
    end.

(** [NewTemplateFormatter]: [None] is the nil pointer returned with an error. *)
Definition NewTemplateFormatter (format : string)
  : outcome (option TemplateFormatter * option error) :=
  let f := mkTemplateFormatter format [] [] defaultProcessMessage in
  '(f', err) <- SetFormat f format ;;
  match err with
  | Some e => Ret (None, Some e)
  | None => Ret (Some f', None)
  end.

Definition GetFormat (f : TemplateFormatter) : string := formatString f.

(** ** The renderer *)

Definition colorReset : string := String (ascii_of_nat 27) "[0m".

(** [alignFmt] is either the empty string or a verb built by
    [fmt.Sprintf("%%%ds", width)] or [fmt.Sprintf("%%-%ds", width)]:
    [PadFmt minus wid] stands for ["%<wid>s"], with the "-" flag when [minus]
    is set; [NoFmt] is [""]. *)
Inductive align_fmt : Type :=
| NoFmt
| PadFmt (minus : bool) (wid : Z).

(** [fmt.Sprintf(alignFmt, s)] for such a verb: spaces are added up to [wid]
    runes, after [s] under the "-" flag and before it otherwise. *)
Definition Sprintf_pad (minus : bool) (wid : Z) (s : string) : string :=
  let padding := repeat_char " "%char (Z.to_nat wid - RuneCountInString s) in
  if minus then s +++ padding else padding +++ s.

(** [formatTime(t, resolution...)] *)
Definition formatTime (t : Time) (resolution : list Z) : string :=
  let ts :=
    pad_d 4 (Year t) +++ "-" +++ pad_0d 2 (Month t) +++ "-" +++ pad_0d 2 (Day t)
    +++ " " +++ pad_0d 2 (Hour t) +++ ":" +++ pad_0d 2 (Minute t)
    +++ ":" +++ pad_0d 2 (Second t) in
  match resolution with
  | [res] =>
      if (res =? 1000)%Z
      then ts +++ "." +++ pad_0d 3 (Z.quot (Nanosecond t) 1000000)
      else ts
  | _ => ts
  end.

(** The local variables of [Format] that the token loop updates. *)
Record fstate : Type := mkFstate {
  parts : list string;
  alignFmt : align_fmt;
  width : Z;
  processedMessage : string
}.

Section Renderer.

(** [LevelName] is declared outside the two source files. *)
Variable LevelName : Level -> string.

(** The [switch] on an [int] token: the text [s] it selects and the
    locals after it. *)
Definition Format_switch (f : TemplateFormatter) (r : Rec.t) (lineColor : string)
           (st : fstate) (tok : Z) : string * fstate :=
  if (tok =? tfTimeMilliseconds)%Z then (formatTime (Rec.Time r) [1000%Z], st)
  else if (tok =? tfTime)%Z then (formatTime (Rec.Time r) [], st)
  else if (tok =? tfName)%Z then
    (if len (Rec.Name r) =? 0 then "root" else Rec.Name r, st)
  else if (tok =? tfBaseName)%Z then
    (if len (Rec.Name r) =? 0 then "root"
     else let ps := split_on "/" (Rec.Name r) in
          nth (List.length ps - 1) ps "", st)
  else if (tok =? tfLevel)%Z then (LevelName (Rec.Level r), st)
  else if (tok =? tfMessage)%Z then
    if 0 <? len (processedMessage st) then (processedMessage st, st)
    else if 0 <? len (Rec.Message r) then
      let pm := processMessage f (Rec.Message r) lineColor in
      (pm, mkFstate (parts st) (alignFmt st) (width st) pm)
    else ("", st)
  else if (0 <? Z.land tok tfFieldWidthMask)%Z then
    let w := Z.shiftr (Z.land tok tfFieldWidthMask) tfFieldWidthShift in
    let af := if (0 <? Z.land tok tfAlignRight)%Z
              then PadFmt false w
              else PadFmt true w in
    ("", mkFstate (parts st) af w (processedMessage st))
  else ("", st).

(** One iteration of [for _, token := range f.formatTokens]. *)
Definition Format_step (f : TemplateFormatter) (r : Rec.t) (lineColor : string)
           (st : fstate) (tok : token) : fstate :=
  match tok with
  | TStr lit =>
      mkFstate (parts st ++ [lit]) (alignFmt st) (width st) (processedMessage st)
  | TInt n =>
      let '(s, st) := Format_switch f r lineColor st n in
      if 0 <? len s then
        match alignFmt st with
        | PadFmt minus wid =>
            let s := Sprintf_pad minus wid s in
            let s := if (width st <? Z.of_nat (len s))%Z
                     then slice s 0 (Z.to_nat (width st))
                     else s in
            (* field width used, reset it for next token *)
            mkFstate (parts st ++ [s]) NoFmt 0 (processedMessage st)
        | NoFmt =>
            mkFstate (parts st ++ [s]) (alignFmt st) (width st) (processedMessage st)
        end
      else st
  end.

(** [f.levelColoring[r.Level]]: a missing key reads as [""]. *)
Definition level_index (m : level_map) (l : Level) : string :=
  match level_lookup m l with
  | Some c => c
  | None => ""
  end.

Definition Format (f : TemplateFormatter) (r : Rec.t) : string * option error :=
  if Level_eqb (Rec.Level r) NOTSET then ("", Some ErrorNotSet)
  else
    let '(parts0, colorSet, lineColor) :=
      if negb (level_index (levelColoring f) (Rec.Level r) =? "")%string then
        match level_lookup (levelColoring f) (Rec.Level r) with
        | Some c => ([c], true, c)
        | None => ([], false, colorReset)
        end
      else ([], false, "") in
    let st := fold_left (Format_step f r lineColor) (formatTokens f)
                        (mkFstate parts0 NoFmt 0 "") in
    let parts := if colorSet then parts st ++ [colorReset] else parts st in
    (join parts, None).

End Renderer.

(** ** The operating system the handlers talk to

    Files are known by their identity, the [(device, inode)] pair.  A
    directory binds paths to identities, a descriptor table binds each open
    [*os.File] to the identity it was opened on; renaming or replacing a path
    changes the directory only. *)

Definition FileId : Type := (Z * Z)%type.

Definition FileId_eqb (a b : FileId) : bool :=
  (fst a =? fst b)%Z && (snd a =? snd b)%Z.

Record World : Type := mkWorld {
  dir : list (string * FileId);      (* path -> identity *)
  files : list (FileId * string);    (* identity -> bytes written so far *)
  fds : list (nat * FileId);         (* open *os.File -> identity *)
  next_fd : nat;
  next_ino : Z;                      (* inode a newly created file gets *)
  denied : list string;              (* paths that cannot be opened *)
  stderr : list string               (* what was printed on os.Stderr *)
}.

Module OS.

Definition O_WRONLY : Z := 0x1.
Definition O_CREATE : Z := 0x40.
Definition O_TRUNC : Z := 0x200.
Definition O_APPEND : Z := 0x400.

(** Device of the directory new files are created in. *)
Definition root_dev : Z := 1.

Fixpoint lookup_path (d : list (string * FileId)) (p : string) : option FileId :=
  match d with
  | [] => None
  | (q, id) :: d' => if (q =? p)%string then Some id else lookup_path d' p
  end.

Fixpoint lookup_fd (t : list (nat * FileId)) (fd : nat) : option FileId :=
  match t with
  | [] => None
  | (k, id) :: t' => if k =? fd then Some id else lookup_fd t' fd
  end.

Fixpoint content (fs : list (FileId * string)) (id : FileId) : string :=
  match fs with
  | [] => ""
  | (k, c) :: fs' => if FileId_eqb k id then c else content fs' id
  end.

Fixpoint set_content (fs : list (FileId * string)) (id : FileId) (c : string)
  : list (FileId * string) :=
  match fs with
  | [] => [(id, c)]
  | (k, c0) :: fs' =>
      if FileId_eqb k id then (k, c) :: fs' else (k, c0) :: set_content fs' id c
  end.

Definition with_files (w : World) (fs : list (FileId * string)) : World :=
  mkWorld (dir w) fs (fds w) (next_fd w) (next_ino w) (denied w) (stderr w).

(** [fmt.Fprintf(os.Stderr, ...)] *)
Definition eprint (w : World) (line : string) : World :=
  mkWorld (dir w) (files w) (fds w) (next_fd w) (next_ino w) (denied w)
          (stderr w ++ [line]).

(** What [info.Sys()] holds: a [*syscall.Stat_t] or something else. *)
Inductive sys_value : Type :=
| Stat_t (Dev Ino : Z)
| OtherSys.

Record FileInfo : Type := mkFileInfo { Sys : sys_value }.

(** [os.Stat(name)]: [None] is the pair [(nil, err)] of a failed stat. *)
Definition Stat (w : World) (name : string) : option FileInfo :=
  match lookup_path (dir w) name with
  | Some (d, i) => Some (mkFileInfo (Stat_t d i))
  | None => None
  end.

(** [os.OpenFile(name, flags, 0664)]: the path is opened, created first
    when it is missing and [O_CREATE] is given, emptied under [O_TRUNC]. *)
Definition OpenFile (w : World) (name : string) (flags : Z)
  : World * (error + nat) :=
  if existsb (String.eqb name) (denied w) then (w, inl (PathError "open" name))
  else
    match lookup_path (dir w) name with
    | Some id =>
        let fs := if (0 <? Z.land flags O_TRUNC)%Z
                  then set_content (files w) id ""
                  else files w in
        (mkWorld (dir w) fs ((next_fd w, id) :: fds w) (S (next_fd w))
                 (next_ino w) (denied w) (stderr w),
         inr (next_fd w))
    | None =>
        if (0 <? Z.land flags O_CREATE)%Z then
          let id := (root_dev, next_ino w) in
          (mkWorld ((name, id) :: dir w) (set_content (files w) id "")
                   ((next_fd w, id) :: fds w) (S (next_fd w))
                   (next_ino w + 1)%Z (denied w) (stderr w),
           inr (next_fd w))
        else (w, inl (PathError "open" name))
    end.

(** [Write] of an [*os.File] on an open descriptor appends to the file the
    descriptor was opened on, whatever path names it now. *)
Definition File_Write (w : World) (fp : option nat) (msg : string)
  : World * option error :=
  match fp with
  | None => (w, Some ErrInvalid)
  | Some fd =>
      match lookup_fd (fds w) fd with
      | None => (w, Some ErrClosed)
      | Some id =>
          (with_files w (set_content (files w) id (content (files w) id +++ msg)),
           None)
      end
  end.

(** [fp.Sync(); fp.Close()] *)
Definition File_Close (w : World) (fd : nat) : World :=
  mkWorld (dir w) (files w)
          (filter (fun e => negb (fst e =? fd)) (fds w))
          (next_fd w) (next_ino w) (denied w) (stderr w).

(** The path is given to another file: log rotation moved the old file
    away and something created a new one under the same name. *)
Definition replace_path (w : World) (name : string) (id : FileId) : World :=
  mkWorld ((name, id) :: filter (fun e => negb (fst e =? name)%string) (dir w))
          (set_content (files w) id "") (fds w)
          (next_fd w) (next_ino w) (denied w) (stderr w).

(** The path is removed (the file is missing). *)
Definition remove_path (w : World) (name : string) : World :=
  mkWorld (filter (fun e => negb (fst e =? name)%string) (dir w))
          (files w) (fds w) (next_fd w) (next_ino w) (denied w) (stderr w).

End OS.

Definition Error_string (e : error) : string :=
  match e with
  | ErrorNotSet => "notset error log"
  | Errorf msg => msg
  | PathError op path => op +++ " " +++ path +++ ": no such file or directory"
  | ErrInvalid => "invalid argument"
  | ErrClosed => "file already closed"
  end.

Definition newline : string := String (ascii_of_nat 10) "".

(** ** StreamHandler *)

(** The [Formatter] interface: a value with a [Format] method. *)
Definition Formatter : Type := Rec.t -> string * option error.

(** An [io.Writer] as the handlers use it: the nil interface, or an
    [*os.File], itself possibly a nil pointer. *)
Inductive writer : Type :=
| WNil
| WFile (fp : option nat).

Record StreamHandler : Type := mkStreamHandler {
  Writer : writer;
  StreamFormatter : option Formatter;
  LogLevel : Level;
  CommitChannel : list Rec.t;        (* the records buffered in the channel *)
  CommitChannel_closed : bool;
  CommitterStop_closed : bool;       (* the channel is unbuffered *)
  StreamShutdown : bool
}.

Definition CommitChannel_cap : nat := 100.

Module Stream.

(** [NewStreamHandler(w)]; the consumer it starts with [go
    handler.committer()] is the committer of the system below. *)
Definition NewStreamHandler (w : writer) : StreamHandler :=
  mkStreamHandler w None NOTSET [] false false false.

Definition SetLevel (h : StreamHandler) (level : Level) : StreamHandler :=
  mkStreamHandler (Writer h) (StreamFormatter h) level (CommitChannel h)
                  (CommitChannel_closed h) (CommitterStop_closed h)
                  (StreamShutdown h).

Definition Level (h : StreamHandler) : Level := LogLevel h.

Definition SetFormatter (h : StreamHandler) (formatter : option Formatter)
           (w : World) : StreamHandler * World :=
  let w := match formatter with
           | None => OS.eprint w ("log4go.StreamHandler: setting nil formatter" +++ newline)
           | Some _ => w
           end in
  (mkStreamHandler (Writer h) formatter (LogLevel h) (CommitChannel h)
                   (CommitChannel_closed h) (CommitterStop_closed h)
                   (StreamShutdown h), w).

Definition Formatter (h : StreamHandler) : option Formatter := StreamFormatter h.

Definition set_Writer (h : StreamHandler) (wr : writer) : StreamHandler :=
  mkStreamHandler wr (StreamFormatter h) (LogLevel h) (CommitChannel h)
                  (CommitChannel_closed h) (CommitterStop_closed h)
                  (StreamShutdown h).

(** [func (h *StreamHandler) onPreWrite()]: the default does nothing. *)
Definition onPreWrite (h : StreamHandler) (w : World) : StreamHandler * World :=
  (h, w).

(** [h.Writer.Write(msg)] *)
Definition Writer_Write (wr : writer) (msg : string) (w : World)
  : outcome (World * option error) :=
  match wr with
  | WNil => Panic "invalid memory address or nil pointer dereference"
  | WFile fp => Ret (OS.File_Write w fp msg)
  end.

(** The body of [case rec := <-h.CommitChannel:] in [committer], whose
    receiver is [h *StreamHandler]: [h.onPreWrite()] is the method of
    [*StreamHandler]. *)
Definition committer_recv (h : StreamHandler) (rec : Rec.t) (w : World)
  : outcome (StreamHandler * World) :=
  match Formatter h with
  | None => Panic "invalid memory address or nil pointer dereference"
  | Some formatter =>
      let '(msg, err) := formatter rec in
      match err with
      | Some ErrorNotSet => Ret (h, w)                       (* continue *)
      | Some e =>
          Ret (h, OS.eprint w ("log4go.StreamHandler: formatter error "
                               +++ Error_string e +++ newline))
      | None =>
          let msg := msg +++ newline in
          let '(h, w) := onPreWrite h w in
          '(w, err) <- Writer_Write (Writer h) msg w ;;
          match err with
          | Some e =>
              Ret (h, OS.eprint w ("log4go.StreamHandler: write error: "
                                   +++ Error_string e +++ newline))
          | None => Ret (h, w)
          end
      end
  end.

End Stream.

(** ** The handler as a concurrent system

    One [StreamHandler], its consumer goroutine ([committer]), producers
    calling [Handle] and one caller of [Shutdown].  The goroutines are
    interleaved at the statements that touch what they share.

    A producer in [Handle] has two such statements, the test of the flag and
    the send: between the two it is one of the producers in [sending], where
    it also stays while the channel is full.  The consumer is either at the
    [select] at the head of its [for] loop, or in the body of the receive
    case with the record it has taken, [holding]: the loop has no [return]
    and no labelled [break], and the [break] of the stop case leaves the
    [select] only.

    An action is what the scheduler lets happen next; an action that cannot
    happen (a blocked send, a case of the [select] that is not ready) has no
    successor.  A panic in any goroutine ends the program: nothing happens
    after it.  The flag is read and written in the order of the
    interleaving. *)

Inductive shutdown_pc : Type :=
| SdNotCalled       (* Shutdown() was not called yet *)
| SdSending         (* flag set; blocked in h.CommitterStop <- struct{}{} *)
| SdHandshaken      (* the send was received; the two close() are next *)
| SdReturned.       (* the first call of Shutdown() has returned *)

Record Sys : Type := mkSys {
  hdl : StreamHandler;
  world : World;
  caller : shutdown_pc;
  sending : list Rec.t;              (* the producers at h.CommitChannel <- *rec *)
  holding : option Rec.t;            (* the record the consumer has received *)
  crashed : bool;                    (* a goroutine panicked *)
  enqueued : list Rec.t              (* history: the records Handle has sent *)
}.

Inductive action : Type :=
| Call_Handle (rec : Rec.t)          (* a producer enters Handle(rec): the test *)
| Handle_Send (i : nat)              (* the send of the producer [i] of [sending] *)
| Call_Shutdown                      (* Shutdown() runs up to its send *)
| Select_Stop                        (* the select takes <-h.CommitterStop *)
| Shutdown_Close                     (* Shutdown() closes the channels, returns *)
| Select_Recv                        (* the select takes rec := <-h.CommitChannel *)
| Commit.                            (* the body of the receive case *)

Module Pipeline.

Definition set_queue (h : StreamHandler) (q : list Rec.t) : StreamHandler :=
  mkStreamHandler (Writer h) (StreamFormatter h) (LogLevel h) q
                  (CommitChannel_closed h) (CommitterStop_closed h)
                  (StreamShutdown h).

Definition set_shutdown (h : StreamHandler) : StreamHandler :=
  mkStreamHandler (Writer h) (StreamFormatter h) (LogLevel h) (CommitChannel h)
                  (CommitChannel_closed h) (CommitterStop_closed h) true.

Definition close_channels (h : StreamHandler) : StreamHandler :=
  mkStreamHandler (Writer h) (StreamFormatter h) (LogLevel h) (CommitChannel h)
                  true true (StreamShutdown h).

(** [Handle], the test [if !h.StreamShutdown]: the producer goes on to the
    send, or returns at once. *)
Definition Handle_enter (s : Sys) (rec : Rec.t) : option Sys :=
  if negb (StreamShutdown (hdl s)) then
    Some (mkSys (hdl s) (world s) (caller s) (sending s ++ [rec]) (holding s)
                (crashed s) (enqueued s))
  else Some s.

(** [Handle], the send [h.CommitChannel <- *rec] of the producer [i] and the
    return: the send panics on a closed channel, whether the producer was
    waiting or not, and blocks on a full buffer. *)
Definition Handle_send (s : Sys) (i : nat) : option Sys :=
  match nth_error (sending s) i with
  | None => None
  | Some rec =>
      let h := hdl s in
      if CommitChannel_closed h
      then Some (mkSys h (world s) (caller s) (sending s) (holding s) true
                       (enqueued s))
      else if List.length (CommitChannel h) <? CommitChannel_cap
      then Some (mkSys (set_queue h (CommitChannel h ++ [rec])) (world s)
                       (caller s) (firstn i (sending s) ++ skipn (S i) (sending s))
                       (holding s) (crashed s) (enqueued s ++ [rec]))
      else None
  end.

(** [Shutdown], from its entry to the send on the unbuffered channel. *)
Definition Shutdown_enter (s : Sys) : option Sys :=
  let h := hdl s in
  if negb (StreamShutdown h) then
    match caller s with
    | SdNotCalled =>
        Some (mkSys (set_shutdown h) (world s) SdSending (sending s) (holding s)
                    (crashed s) (enqueued s))
    | _ => None
    end
  else Some s.

(** [close(h.CommitterStop); close(h.CommitChannel)] and the return.  What
    another goroutine can do between the two [close] it can do before the
    first, to the same effect: a send goes through, the stop case changes
    nothing. *)
Definition Shutdown_close (s : Sys) : option Sys :=
  match caller s with
  | SdHandshaken =>
      Some (mkSys (close_channels (hdl s)) (world s) SdReturned (sending s)
                  (holding s) (crashed s) (enqueued s))
  | _ => None
  end.

(** [case <-h.CommitterStop: break], for a consumer at its [select]: ready
    when the sender waits or the channel is closed; the consumer is back at
    its [select]. *)
Definition committer_stop (s : Sys) : option Sys :=
  match holding s with
  | Some _ => None
  | None =>
      match caller s with
      | SdSending =>
          Some (mkSys (hdl s) (world s) SdHandshaken (sending s) (holding s)
                      (crashed s) (enqueued s))
      | _ => if CommitterStop_closed (hdl s) then Some s else None
      end
  end.

(** [case rec := <-h.CommitChannel:], the receive: ready when a record is
    buffered or the channel is closed, which yields the zero record. *)
Definition committer_take (s : Sys) : option (Rec.t * StreamHandler) :=
  match CommitChannel (hdl s) with
  | rec :: q => Some (rec, set_queue (hdl s) q)
  | [] => if CommitChannel_closed (hdl s) then Some (zeroRecord, hdl s) else None
  end.

Definition committer_receive (s : Sys) : option Sys :=
  match holding s with
  | Some _ => None
  | None =>
      match committer_take s with
      | None => None
      | Some (rec, h) =>
          Some (mkSys h (world s) (caller s) (sending s) (Some rec) (crashed s)
                      (enqueued s))
      end
  end.

(** The body of the receive case on the record taken; the consumer is then
    back at its [select]. *)
Definition committer_commit (s : Sys) : option Sys :=
  match holding s with
  | None => None
  | Some rec =>
      match Stream.committer_recv (hdl s) rec (world s) with
      | Ret (h', w') =>
          Some (mkSys h' w' (caller s) (sending s) None (crashed s) (enqueued s))
      | Panic _ =>
          Some (mkSys (hdl s) (world s) (caller s) (sending s) (holding s) true
                      (enqueued s))
      end
  end.

Definition step (s : Sys) (a : action) : option Sys :=
  if crashed s then None
  else match a with
       | Call_Handle rec => Handle_enter s rec
       | Handle_Send i => Handle_send s i
       | Call_Shutdown => Shutdown_enter s
       | Select_Stop => committer_stop s
       | Shutdown_Close => Shutdown_close s
       | Select_Recv => committer_receive s
       | Commit => committer_commit s
       end.

Fixpoint run (s : Sys) (acts : list action) : option Sys :=
  match acts with
  | [] => Some s
  | a :: acts' =>
      match step s a with
      | Some s' => run s' acts'
      | None => None
      end
  end.

(** What the sink of the handler has received: the bytes of the file its
    [Writer] is open on. *)
Definition sink (s : Sys) : string :=
  match Writer (hdl s) with
  | WFile (Some fd) =>
      match OS.lookup_fd (fds (world s)) fd with
      | Some id => OS.content (files (world s)) id
      | None => ""
      end
  | _ => ""
  end.

(** A handler made by [NewStreamHandler] on an open file, given a
    formatter, with nothing enqueued. *)
Definition boot (w : World) (fd : nat) (formatter : Formatter) : Sys :=
  let '(h, w) := Stream.SetFormatter (Stream.NewStreamHandler (WFile (Some fd)))
                                     (Some formatter) w in
  mkSys h w SdNotCalled [] None false [].

(** The line the consumer writes for a record: nothing when the
    formatter fails. *)
Definition line (formatter : Formatter) (rec : Rec.t) : string :=
  match formatter rec with
  | (msg, None) => msg +++ newline
  | (_, Some _) => ""
  end.

Fixpoint lines (formatter : Formatter) (recs : list Rec.t) : string :=
  match recs with
  | [] => ""
  | rec :: recs' => line formatter rec +++ lines formatter recs'
  end.

(** The record in the hands of the consumer, if any. *)
Definition in_hand (s : Sys) : list Rec.t :=
  match holding s with
  | Some rec => [rec]
  | None => []
  end.

(** The consumer's turns that empty the channel: the body of the receive
    case when it is in it, then a receive and its body for each record
    buffered. *)
Definition drain (s : Sys) : list action :=
  (match holding s with
   | Some _ => [Commit]
   | None => []
   end)
  ++ List.concat (repeat [Select_Recv; Commit]
                         (List.length (CommitChannel (hdl s)))).

End Pipeline.

(** ** WatchedFileHandler *)

Module Watched.

Record WatchedFileHandler : Type := mkWatchedFileHandler {
  SH : option StreamHandler;       (* the embedded *StreamHandler, nil at first *)
  fp : option nat;                 (* *os.File *)
  filename : string;
  append : bool;
  inode : Z;
  dev : Z
}.

Definition uint64 (z : Z) : Z := z mod 2 ^ 64.

(** [statFile]: [info.Sys()] on the nil [FileInfo] of a failed stat is a
    method call on a nil interface. *)
Definition statFile (h : WatchedFileHandler) (w : World) : outcome (Z * Z) :=
  match OS.Stat w (filename h) with
  | None => Panic "invalid memory address or nil pointer dereference"
  | Some info =>
      match OS.Sys info with
      | OS.Stat_t d i => Ret (uint64 d, i)
      | OS.OtherSys => Ret (0%Z, 0%Z)
      end
  end.

Definition fileHasMoved (h : WatchedFileHandler) (w : World) : outcome bool :=
  '(d, ino) <- statFile h w ;;
  (* in case statFile() returns (0, 0) this will return true also *)
  Ret (negb (d =? dev h)%Z || negb (ino =? inode h)%Z).

(** [h.Writer = v] goes through the embedded pointer. *)
Definition set_Writer (h : WatchedFileHandler) (v : writer)
  : outcome WatchedFileHandler :=
  match SH h with
  | None => Panic "invalid memory address or nil pointer dereference"
  | Some s =>
      Ret (mkWatchedFileHandler (Some (Stream.set_Writer s v)) (fp h)
                                (filename h) (append h) (inode h) (dev h))
  end.

Definition close (h : WatchedFileHandler) (w : World)
  : outcome (WatchedFileHandler * World) :=
  match fp h with
  | Some fd =>
      let w := OS.File_Close w fd in
      let h := mkWatchedFileHandler (SH h) None (filename h) (append h)
                                    (inode h) (dev h) in
      h <- set_Writer h WNil ;;
      Ret (h, w)
  | None => Ret (h, w)
  end.

Definition open (h : WatchedFileHandler) (w : World)
  : outcome (WatchedFileHandler * World * option error) :=
  let flags := Z.lor OS.O_WRONLY OS.O_CREATE in
  let flags := if append h then Z.lor flags OS.O_APPEND
               else Z.lor flags OS.O_TRUNC in
  match OS.OpenFile w (filename h) flags with
  | (w, inl err) => Ret (h, w, Some err)
  | (w, inr newfp) =>
      let s := Stream.NewStreamHandler (WFile (fp h)) in
      let h := mkWatchedFileHandler (Some s) (fp h) (filename h) (append h)
                                    (inode h) (dev h) in
      h <- set_Writer h (WFile (Some newfp)) ;;
      '(d, ino) <- statFile h w ;;
      Ret (mkWatchedFileHandler (SH h) (fp h) (filename h) (append h) ino d,
           w, None)
  end.

Definition NewWatchedFileHandler (name : string) (app writeStartHeader : bool)
           (w : World) : outcome (option WatchedFileHandler * World * option error) :=
  let wfh := mkWatchedFileHandler None None name app 0 0 in
  '(wfh, w, err) <- open wfh w ;;
  match err with
  | Some e => Ret (None, w, Some e)
  | None =>
      if writeStartHeader then
        match SH wfh with
        | None => Panic "invalid memory address or nil pointer dereference"
        | Some s =>
            '(w, err) <- Stream.Writer_Write (Writer s)
                                             ("START LOGS" +++ newline) w ;;
            match err with
            | Some e => Ret (None, w, Some e)
            | None => Ret (Some wfh, w, None)
            end
        end
      else Ret (Some wfh, w, None)
  end.

(** [func (h *WatchedFileHandler) onPreWrite()]: "called when committer is
    about to write a message". *)
Definition onPreWrite (h : WatchedFileHandler) (w : World)
  : outcome (WatchedFileHandler * World) :=
  moved <- fileHasMoved h w ;;
  if (moved : bool) then
    (* just re-open, with same filename *)
    '(h, w) <- close h w ;;
    '(h, w, _) <- open h w ;;
    h <- set_Writer h (WFile (fp h)) ;;
    Ret (h, w)
  else Ret (h, w).

(** [SetFormatter], promoted from the embedded handler. *)
Definition SetFormatter (h : WatchedFileHandler) (formatter : option Formatter)
           (w : World) : outcome (WatchedFileHandler * World) :=
  match SH h with
  | None => Panic "invalid memory address or nil pointer dereference"
  | Some s =>
      let '(s, w) := Stream.SetFormatter s formatter w in
      Ret (mkWatchedFileHandler (Some s) (fp h) (filename h) (append h)
                                (inode h) (dev h), w)
  end.

(** The consumer of a watched handler is the [committer] goroutine that
    [NewStreamHandler] started on the embedded [*StreamHandler]: its
    receiver is that handler, and so is the receiver of the
    [h.onPreWrite()] it calls. *)
Definition committer_recv (h : WatchedFileHandler) (rec : Rec.t) (w : World)
  : outcome (WatchedFileHandler * World) :=
  match SH h with
  | None => Panic "invalid memory address or nil pointer dereference"
  | Some s =>
      '(s, w) <- Stream.committer_recv s rec w ;;
      Ret (mkWatchedFileHandler (Some s) (fp h) (filename h) (append h)
                                (inode h) (dev h), w)
  end.

End Watched.

(** ** Notions the statements use *)

(** The template contains a bracketed span: a "{", at least one byte other
    than "}", then a "}". *)
Definition has_span (t : string) : Prop :=
  exists a x b,
    t = a +++ String "{" (x +++ String "}" b)
    /\ x <> "" /\ contains_char "}" x = false.

(** A span of the template at offsets [(i, j)]. *)
Definition span_at (t : string) (i j : nat) : Prop :=
  exists a x b,
    t = a +++ String "{" (x +++ String "}" b)
    /\ i = String.length a /\ j = String.length a + String.length x + 2
    /\ x <> "" /\ contains_char "}" x = false.

(** Group 1 of [templateSpecPtn] on the span [(start, end)] of a template:
    the selector of the span. *)
Definition selector_of (template : string) (span : nat * nat) : string :=
  match templateSpecPtn_FindStringSubmatch (slice template (fst span) (snd span)) with
  | Some (_ :: g1 :: _) => g1
  | _ => ""
  end.

Definition selectors (template : string) : list string :=
  map (selector_of template) (templatePtn_FindAllStringIndex template).

(** A field selector token, [tfTime] to [tfMessage]. *)
Definition is_selector (n : Z) : Prop := (0 <= n <= 5)%Z.

(** Sample data for the closed statements. *)
Module Sample.

Definition LevelName (l : Level) : string :=
  match l with
  | NOTSET => "NOTSET" | DEBUG => "DEBUG" | INFO => "INFO"
  | WARNING => "WARNING" | ERROR => "ERROR" | FATAL => "FATAL"
  end.

Definition noon : Time := mkTime 2024 3 7 12 0 0 0.

(** A record whose [name] field renders as "abc". *)
Definition abc : Rec.t := Rec.mk noon "abc" INFO "hello".

(** The same with an empty message. *)
Definition abc_silent : Rec.t := Rec.mk noon "abc" INFO "".

(** A record of that logger with the message [m]. *)
Definition say (m : string) : Rec.t := Rec.mk noon "abc" INFO m.



(** A formatter as [NewTemplateFormatter] leaves it, for a template
    compiled to [tokens]. *)
Definition formatter (template : string) (tokens : list token) : TemplateFormatter :=
  mkTemplateFormatter template tokens [] defaultProcessMessage.

Definition message_formatter : TemplateFormatter :=
  formatter "{message}" [TInt tfMessage].

(** A machine where "app.log" names the file of inode 10 on device 1. *)
Definition disk : World :=
  mkWorld [("app.log", (1, 10)%Z)] [((1, 10)%Z, "")] [] 3 11 [] [].

(** A machine with descriptor 3 open on that file. *)
Definition disk_open : World :=
  mkWorld [("app.log", (1, 10)%Z)] [((1, 10)%Z, "")] [(3, (1, 10)%Z)] 4 11 [] [].

(** A stream handler on descriptor 3 with the "{message}" formatter. *)
Definition pipeline : Sys :=
  Pipeline.boot disk_open 3 (Format LevelName message_formatter).

End Sample.



(** What a handler in service satisfies: the formatter and the sink are
    those it was given; the consumer has received the first [k] of the records
    sent, in the order sent, and after them [j] zero records, which a closed
    and empty channel yields; what it has received is written, the last
    record apart when the consumer still holds it; the other records sent are
    in the channel. *)
Definition in_service (formatter : Formatter) (fd : nat) (id : FileId)
           (before : string) (s : Sys) : Prop :=
  StreamFormatter (hdl s) = Some formatter
  /\ Writer (hdl s) = WFile (Some fd)
  /\ OS.lookup_fd (fds (world s)) fd = Some id
  /\ exists k j written,
      k <= List.length (enqueued s)
      /\ written ++ Pipeline.in_hand s
         = firstn k (enqueued s) ++ repeat zeroRecord j
      /\ CommitChannel (hdl s) = skipn k (enqueued s)
      /\ (0 < j -> CommitChannel_closed (hdl s) = true
                   /\ CommitChannel (hdl s) = [])
      /\ OS.content (files (world s)) id
         = before +++ Pipeline.lines formatter written.


(** The sample handler after [Handle(abc)] and a complete [Shutdown()],
    the consumer having taken the stop signal first. *)
Definition shutdown_first : list action :=
  [Call_Handle Sample.abc; Handle_Send 0;
   Call_Shutdown; Select_Stop; Shutdown_Close].

Definition after_shutdown : Sys :=
  match Pipeline.run Sample.pipeline shutdown_first with
  | Some s => s
  | None => Sample.pipeline
  end.

(** The sample handler after three calls of [Handle]: the consumer has
    written the first record, [Shutdown()] was then called and has returned,
    and the consumer has received the second record since. *)
Definition shutdown_midway : list action :=
  [Call_Handle (Sample.say "one"); Handle_Send 0;
   Call_Handle (Sample.say "two"); Handle_Send 0;
   Call_Handle (Sample.say "three"); Handle_Send 0;
   Select_Recv; Commit;
   Call_Shutdown; Select_Stop; Shutdown_Close;
   Select_Recv].

Definition after_shutdown_midway : Sys :=
  match Pipeline.run Sample.pipeline shutdown_midway with
  | Some s => s
  | None => Sample.pipeline
  end.


Definition nil_dereference : string :=
  "invalid memory address or nil pointer dereference".


(** A log rotation under a watched handler: the handler is opened on
    "app.log" and given the "{message}" formatter, the path is given to a new
    file of inode 11, and the consumer then handles one record.  The result
    is what [fileHasMoved] says at that point, and the handler and the
    machine after the consumer's turn. *)
Definition rotation : outcome (bool * (Watched.WatchedFileHandler * World)) :=
  '(o, w, _) <- Watched.NewWatchedFileHandler "app.log" true false Sample.disk ;;
  match o with
  | None => Panic "no handler"
  | Some h =>
      '(h, w) <- Watched.SetFormatter
                   h (Some (Format Sample.LevelName Sample.message_formatter)) w ;;
      let w := OS.replace_path w "app.log" (1, 11)%Z in
      moved <- Watched.fileHasMoved h w ;;
      r <- Watched.committer_recv h Sample.abc w ;;
      Ret (moved, r)
  end.

(** What is looked at after the rotation: the answer of [fileHasMoved], the
    writer of the handler, the identity it holds, the file descriptor 3 is
    open on, the file the path names, and the bytes of the two files. *)
Definition observe_rotation (r : bool * (Watched.WatchedFileHandler * World)) :=
  let '(moved, (h, w)) := r in
  (moved, option_map Writer (Watched.SH h), (Watched.dev h, Watched.inode h),
   OS.lookup_fd (fds w) 3, OS.lookup_path (dir w) "app.log",
   OS.content (files w) (1, 10)%Z, OS.content (files w) (1, 11)%Z).

(** ** Further notions *)

(** The keys of [tokenToValue]. *)
Definition selector_names : list string :=
  ["time"; "timems"; "name"; "basename"; "level"; "message"].

(** A token [SetFormat] may install: a literal that is not empty, a field
    selector, the alignment token, or a width token of width 1 to 254. *)
Definition token_ok (t : token) : Prop :=
  match t with
  | TStr s => s <> ""
  | TInt n =>
      is_selector n \/ n = tfAlignRight
      \/ exists w, (1 <= w <= 254)%Z /\ n = (256 * w)%Z
  end.

(** The fields of a time within the ranges of the calendar and the clock,
    the year on four digits at most. *)
Definition civil (t : Time) : Prop :=
  (0 <= Year t <= 9999 /\ 0 <= Month t <= 99 /\ 0 <= Day t <= 99
   /\ 0 <= Hour t <= 99 /\ 0 <= Minute t <= 99 /\ 0 <= Second t <= 99
   /\ 0 <= Nanosecond t <= 999999999)%Z.

(** Every byte is below [utf8.RuneSelf]. *)
Fixpoint all_ascii (s : string) : bool :=
  match s with
  | EmptyString => true
  | String c s' => (nat_of_ascii c <? 128) && all_ascii s'
  end.

(** ** Level colouring *)

Section Colouring.

(** The colour codes of the [color] package, declared outside the two
    source files. *)
Variables RedBg Bold Red Yellow Normal Faint : string.

(** [defaultLevelColoring], as [init] builds it. *)
Definition defaultLevelColoring : level_map :=
  [(FATAL, RedBg +++ Bold); (ERROR, Red); (WARNING, Yellow);
   (INFO, Normal); (DEBUG, Faint)].

Definition set_levelColoring (f : TemplateFormatter) (m : level_map)
  : TemplateFormatter :=
  mkTemplateFormatter (formatString f) (formatTokens f) m (processMessage f).

(** [EnableLevelColoring]: the nil map is the empty one. *)
Definition EnableLevelColoring (f : TemplateFormatter) (enable : bool)
  : TemplateFormatter :=
  if enable then set_levelColoring f defaultLevelColoring
  else set_levelColoring f [].

(** [SetLevelColoring] *)
Definition SetLevelColoring (f : TemplateFormatter) (levelToColors : level_map)
  : TemplateFormatter :=
  set_levelColoring f levelToColors.

End Colouring.

(** The locals of [Format] with [p] put before the parts gathered so far. *)
Definition with_prefix (p : list string) (st : fstate) : fstate :=
  mkFstate (p ++ parts st) (alignFmt st) (width st) (processedMessage st).

(** The line [Format] renders between the colour codes, the message being
    processed for the line colour [lineColor]. *)
Definition plain_line (LevelName : Level -> string) (f : TemplateFormatter)
           (r : Rec.t) (lineColor : string) : string :=
  join (parts (fold_left (Format_step LevelName f r lineColor) (formatTokens f)
                         (mkFstate [] NoFmt 0 ""))).

(** A handler that was given a formatter and a writer other than the nil
    interface, in a state the calls and the consumer can have brought it to:
    the buffer within its capacity, the flag set once [Shutdown] was entered,
    the channels closed exactly when [Shutdown] has returned. *)
Definition orderly (s : Sys) : Prop :=
  StreamFormatter (hdl s) <> None
  /\ Writer (hdl s) <> WNil
  /\ List.length (CommitChannel (hdl s)) <= CommitChannel_cap
  /\ (caller s = SdNotCalled <-> StreamShutdown (hdl s) = false)
  /\ (caller s = SdReturned <-> CommitChannel_closed (hdl s) = true)
  /\ (caller s = SdReturned <-> CommitterStop_closed (hdl s) = true).


(** A handler as [NewStreamHandler] returns it, before any [SetFormatter]. *)
Definition unformatted (wr : writer) (w : World) : Sys :=
  mkSys (Stream.NewStreamHandler wr) w SdNotCalled [] None false [].


(** [NewFileHandler]: the error of the header write is discarded. *)
Definition NewFileHandler (filename : string) (append writeStartHeader : bool)
           (w : World) : World * (error + StreamHandler) :=
  let flags := Z.lor OS.O_WRONLY OS.O_CREATE in
  let flags := if append then Z.lor flags OS.O_APPEND
               else Z.lor flags OS.O_TRUNC in
  match OS.OpenFile w filename flags with
  | (w, inl err) => (w, inl err)
  | (w, inr writer) =>
      let w := if writeStartHeader
               then fst (OS.File_Write w (Some writer) ("START LOGS" +++ newline))
               else w in
      (w, inr (Stream.NewStreamHandler (WFile (Some writer))))
  end.

(** What a file holds right after it was opened for logging: what it held
    before when it existed and is appended to, nothing otherwise; then the
    start header when one is asked for. *)
Definition opened_content (w : World) (name : string) (append header : bool)
  : string :=
  (match OS.lookup_path (dir w) name with
   | Some id => if append then OS.content (files w) id else ""
   | None => ""
   end) +++ (if header then "START LOGS" +++ newline else "").

(** The file a path names once it was opened with [O_CREATE]: the one it
    named, or a new one. *)
Definition opened_id (w : World) (name : string) : FileId :=
  match OS.lookup_path (dir w) name with
  | Some id => id
  | None => (OS.root_dev, next_ino w)
  end.

(** * Properties *)

Ltac split_conj := repeat match goal with |- _ /\ _ => split end.

(** ** Strings *)

Lemma append_nil_r (s : string) : s +++ "" = s.
Proof. induction s as [|c s IH]; simpl; [reflexivity | now rewrite IH]. Qed.

Lemma append_assoc (a b c : string) : (a +++ b) +++ c = a +++ (b +++ c).
Proof. induction a as [|x a IH]; simpl; [reflexivity | now rewrite IH]. Qed.

Lemma length_append (a b : string) :
  String.length (a +++ b) = String.length a + String.length b.
Proof. induction a as [|x a IH]; simpl; [reflexivity | now rewrite IH]. Qed.

Lemma append_snoc (a : string) (c : ascii) (s : string) :
  (a +++ String c "") +++ s = a +++ String c s.
Proof. now rewrite append_assoc. Qed.

Lemma contains_char_append (c : ascii) (a b : string) :
  contains_char c (a +++ b) = contains_char c a || contains_char c b.
Proof.
  induction a as [|x a IH]; simpl; [reflexivity|].
  rewrite IH. now rewrite orb_assoc.
Qed.

Lemma substring_prefix (m b : string) :
  substring 0 (String.length m) (m +++ b) = m.
Proof.
  induction m as [|c m IH]; simpl.
  - destruct b; reflexivity.
  - now rewrite IH.
Qed.

Lemma substring_middle (a m b : string) :
  substring (String.length a) (String.length m) (a +++ m +++ b) = m.
Proof.
  induction a as [|c a IH]; simpl.
  - apply substring_prefix.
  - exact IH.
Qed.


Lemma length_repeat_char (c : ascii) (n : nat) :
  String.length (repeat_char c n) = n.
Proof. induction n as [|n IH]; simpl; [reflexivity | now rewrite IH]. Qed.

Lemma length_zero_iff (s : string) : String.length s = 0 <-> s = "".
Proof. destruct s; simpl; split; intro H; congruence. Qed.

(** ** The scan for bracketed spans *)


Lemma scan_sound (s : string) :
  forall pre pos opened i j,
    pos = String.length pre ->
    match opened with
    | None => True
    | Some start =>
        exists a x, pre = a +++ String "{" x /\ start = String.length a
                    /\ contains_char "}" x = false
    end ->
    In (i, j) (templatePtn_scan s pos opened) ->
    span_at (pre +++ s) i j.
Proof.
  induction s as [|c s IH]; intros pre pos opened i j Hpos Hop Hin; simpl in Hin.
  - contradiction.
  - assert (Hshift : pre +++ String c s = (pre +++ String c "") +++ s)
      by now rewrite append_snoc.
    assert (Hlen : S pos = String.length (pre +++ String c ""))
      by (rewrite length_append; simpl; lia).
    destruct opened as [start|].
    + destruct Hop as (a & x & Hpre & Hstart & Hx).
      destruct (Ascii.eqb_spec c "}") as [->|Hc].
      * destruct (Nat.ltb_spec (S start) pos) as [Hlt|Hge].
        -- destruct Hin as [Heq|Hin].
           ++ inversion Heq; subst i j. exists a, x, s.
              subst pre. rewrite length_append in *. simpl in *.
              repeat split; try assumption.
              ** now rewrite append_assoc.
              ** lia.
              ** intro Hx0; subst x; simpl in *; lia.
           ++ rewrite Hshift. exact (IH _ _ None _ _ Hlen I Hin).
        -- rewrite Hshift. exact (IH _ _ None _ _ Hlen I Hin).
      * rewrite Hshift. apply (IH _ (S pos) (Some start)); [exact Hlen | | exact Hin].
        exists a, (x +++ String c ""). subst pre. repeat split.
        -- now rewrite append_assoc.
        -- assumption.
        -- rewrite contains_char_append, Hx. simpl.
           destruct (Ascii.eqb_spec c "}"); [contradiction | reflexivity].
    + destruct (Ascii.eqb_spec c "{") as [->|Hc].
      * rewrite Hshift. apply (IH _ (S pos) (Some pos)); [exact Hlen | | exact Hin].
        exists pre, "". repeat split. exact Hpos.
      * rewrite Hshift. exact (IH _ _ None _ _ Hlen I Hin).
Qed.

Lemma FindAll_sound (t : string) (i j : nat) :
  In (i, j) (templatePtn_FindAllStringIndex t) -> span_at t i j.
Proof.
  intro Hin. apply (scan_sound t "" 0 None i j eq_refl I Hin).
Qed.

Lemma span_at_slice (t : string) (i j : nat) :
  span_at t i j ->
  exists x, slice t i j = String "{" (x +++ "}")
            /\ x <> "" /\ contains_char "}" x = false.
Proof.
  intros (a & x & b & Ht & Hi & Hj & Hx & Hc). exists x. repeat split; try assumption.
  unfold slice. subst t i j.
  replace (String.length a + String.length x + 2 - String.length a)
    with (String.length (String "{" (x +++ "}")))
    by (simpl; rewrite length_append; simpl; lia).
  replace (a +++ String "{" (x +++ String "}" b))
    with (a +++ String "{" (x +++ "}") +++ b)
    by (simpl; now rewrite append_assoc).
  apply substring_middle.
Qed.

Lemma has_span_contains (t : string) : has_span t -> contains_char "}" t = true.
Proof.
  intros (a & x & b & -> & _ & _).
  rewrite contains_char_append. simpl. rewrite contains_char_append. simpl.
  now rewrite !orb_true_r.
Qed.

Lemma has_span_tail (c : ascii) (s : string) :
  has_span (String c s) -> c <> "{"%char -> has_span s.
Proof.
  intros (a & x & b & Ht & Hx & Hc) Hne.
  destruct a as [|c' a]; simpl in Ht; inversion Ht; subst.
  - contradiction.
  - now exists a, x, b.
Qed.

Lemma has_span_empty_braces (s : string) :
  has_span (String "{" (String "}" s)) -> has_span s.
Proof.
  intros (a & x & b & Ht & Hx & Hc).
  destruct a as [|c a]; simpl in Ht; injection Ht as Htl.
  - destruct x as [|c x]; [contradiction|].
    simpl in Htl. injection Htl as Hc1 _. subst c. simpl in Hc. discriminate.
  - destruct a as [|c' a]; simpl in H; [discriminate|].
    injection H as _ Hs. subst s. now exists a, x, b.
Qed.

Lemma scan_closes (s : string) :
  forall pos start,
    S start < pos -> contains_char "}" s = true ->
    templatePtn_scan s pos (Some start) <> [].
Proof.
  induction s as [|c s IH]; intros pos start Hlt Hc; simpl in *.
  - discriminate.
  - destruct (Ascii.eqb_spec c "}") as [->|Hne].
    + destruct (Nat.ltb_spec (S start) pos); [discriminate | lia].
    + simpl in Hc. apply IH; [lia | exact Hc].
Qed.

Lemma scan_complete (s : string) :
  (forall pos, has_span s -> templatePtn_scan s pos None <> [])
  /\ (forall pos start,
         S start = pos -> has_span (String "{" s) ->
         templatePtn_scan s pos (Some start) <> []).
Proof.
  induction s as [|c s [IHa IHb]]; split.
  - intros pos (a & x & b & Ht & _). destruct a; discriminate.
  - intros pos start _ (a & x & b & Ht & Hx & _).
    destruct a as [|c a]; simpl in Ht; inversion Ht.
    + destruct x; [contradiction | discriminate].
    + destruct a; discriminate.
  - intros pos Hs. simpl.
    destruct (Ascii.eqb_spec c "{") as [->|Hne].
    + apply IHb; [reflexivity | exact Hs].
    + apply IHa. eapply has_span_tail; eassumption.
  - intros pos start Hpos Hs. simpl.
    destruct (Ascii.eqb_spec c "}") as [->|Hne].
    + destruct (Nat.ltb_spec (S start) pos); [lia|].
      apply IHa. now apply has_span_empty_braces.
    + apply scan_closes; [lia|].
      apply has_span_contains in Hs. simpl in Hs.
      destruct (Ascii.eqb_spec c "}"); [contradiction | exact Hs].
Qed.

Lemma span_at_has_span (t : string) (i j : nat) : span_at t i j -> has_span t.
Proof. intros (a & x & b & Ht & _ & _ & Hx & Hc). now exists a, x, b. Qed.

(** The scan finds nothing exactly on the templates without a span. *)
Lemma FindAll_nil_iff (t : string) :
  templatePtn_FindAllStringIndex t = [] <-> ~ has_span t.
Proof.
  split.
  - intros Hnil Hs. destruct (scan_complete t) as [Ha _].
    exact (Ha 0 Hs Hnil).
  - intro Hno.
    destruct (templatePtn_FindAllStringIndex t) as [|[i j] m] eqn:E; [reflexivity|].
    exfalso. apply Hno. apply (span_at_has_span t i j).
    apply FindAll_sound. rewrite E. now left.
Qed.

(** ** The span grammar *)

Lemma strip_close_snoc (x : string) : strip_close (x +++ "}") = Some x.
Proof.
  induction x as [|c x IH]; simpl; [reflexivity|].
  rewrite IH. destruct (x +++ "}") eqn:E; [|reflexivity].
  destruct x; discriminate.
Qed.

(** Every span the scan finds matches the span grammar: the submatch has
    its five strings. *)
Lemma submatch_of_span (x : string) :
  x <> "" -> contains_char "}" x = false ->
  exists g1 g2 g3 g4,
    templateSpecPtn_FindStringSubmatch (String "{" (x +++ "}"))
    = Some [String "{" (x +++ "}"); g1; g2; g3; g4].
Proof.
  intros Hx Hc. unfold templateSpecPtn_FindStringSubmatch.
  change (("{" =? "{")%char) with true. cbv iota.
  rewrite strip_close_snoc.
  destruct x as [|c1 body]; [contradiction|].
  rewrite Hc. destruct (lazy_group body) as [t [a w]].
  now exists (String c1 t), (a +++ w), a, w.
Qed.

Lemma submatch_of_found (t : string) (i j : nat) :
  In (i, j) (templatePtn_FindAllStringIndex t) ->
  exists whole g1 g2 g3 g4,
    templateSpecPtn_FindStringSubmatch (slice t i j) = Some [whole; g1; g2; g3; g4].
Proof.
  intro Hin. apply FindAll_sound, span_at_slice in Hin.
  destruct Hin as (x & Hs & Hx & Hc). rewrite Hs.
  destruct (submatch_of_span x Hx Hc) as (g1 & g2 & g3 & g4 & E).
  now exists (String "{" (x +++ "}")), g1, g2, g3, g4.
Qed.

(** ** The compiler loop *)

Lemma SetFormat_loop_spec (template : string) (m : list (nat * nat)) :
  (forall i j, In (i, j) m ->
     exists whole g1 g2 g3 g4,
       templateSpecPtn_FindStringSubmatch (slice template i j)
       = Some [whole; g1; g2; g3; g4]) ->
  forall last tokens,
    (Forall (fun sel => tokenToValue sel <> None) (map (selector_of template) m)
     /\ exists tokens', SetFormat_loop template m last tokens = Ret (inr tokens'))
    \/ (exists sel, In sel (map (selector_of template) m)
                    /\ tokenToValue sel = None
                    /\ SetFormat_loop template m last tokens
                       = Ret (inl (unknown_token sel))).
Proof.
  induction m as [|[i j] m IH]; intros Hm last tokens.
  - left. split; [constructor | now exists tokens].
  - destruct (Hm i j (or_introl eq_refl)) as (whole & g1 & g2 & g3 & g4 & E).
    assert (Hsel : selector_of template (i, j) = g1)
      by (unfold selector_of; simpl; now rewrite E).
    simpl. rewrite E. simpl.
    destruct (tokenToValue g1) as [v|] eqn:Ev.
    + destruct (IH (fun i' j' H => Hm i' j' (or_intror H)) j
                   (width_tokens g3 g4
                      (if last <? i
                       then tokens ++ [TStr (slice template last i)]
                       else tokens) ++ [TInt v]))
        as [[Hall Hok]|(sel & Hin & Hnone & Herr)].
      * left. split; [|exact Hok].
        constructor; [rewrite Hsel; congruence | exact Hall].
      * right. exists sel. repeat split; [now right | exact Hnone | exact Herr].
    + right. exists g1. repeat split; [now left | exact Ev].
Qed.

(** ** SetFormat *)

Lemma SetFormat_cases (f : TemplateFormatter) (template : string) :
  (templatePtn_FindAllStringIndex template = []
   /\ SetFormat f template = Ret (f, Some (invalid_template template)))
  \/ (templatePtn_FindAllStringIndex template <> []
      /\ Forall (fun sel => tokenToValue sel <> None) (selectors template)
      /\ exists tokens, SetFormat f template = Ret (set_formatTokens f tokens, None))
  \/ (templatePtn_FindAllStringIndex template <> []
      /\ exists sel, In sel (selectors template) /\ tokenToValue sel = None
                     /\ SetFormat f template = Ret (f, Some (unknown_token sel))).
Proof.
  unfold SetFormat, selectors.
  destruct (templatePtn_FindAllStringIndex template) as [|se m] eqn:E.
  - left. now split.
  - right.
    destruct (SetFormat_loop_spec template (se :: m)) with (last := 0) (tokens := @nil token)
      as [[Hall [tokens' Hok]]|(sel & Hin & Hnone & Herr)].
    + intros i j Hin. apply submatch_of_found. now rewrite E.
    + left. split; [discriminate|]. split; [exact Hall|].
      exists tokens'. cbn [List.length Nat.eqb]. now rewrite Hok.
    + right. split; [discriminate|]. exists sel. repeat split; try assumption.
      cbn [List.length Nat.eqb]. now rewrite Herr.
Qed.

Lemma SetFormat_GetFormat (f f' : TemplateFormatter) (template : string) (e : option error) :
  SetFormat f template = Ret (f', e) -> GetFormat f' = GetFormat f.
Proof.
  intro H.
  destruct (SetFormat_cases f template)
    as [[_ E]|[(_ & _ & tokens & E)|(_ & sel & _ & _ & E)]];
    rewrite E in H; injection H as <- _; reflexivity.
Qed.

(** C9: SetFormat returns the invalid-template error exactly when the
    template has no bracketed span, returns an unknown-token error when
    the selector of some span is not one of the six names, and a call that
    returns an error leaves the formatter, its token sequence included, as it
    was. *)
Theorem SetFormat_failure_modes (f : TemplateFormatter) (template : string) :
  (SetFormat f template = Ret (f, Some (invalid_template template))
   <-> ~ has_span template)
  /\ ((exists sel, In sel (selectors template) /\ tokenToValue sel = None) ->
      exists sel, In sel (selectors template) /\ tokenToValue sel = None
                  /\ SetFormat f template = Ret (f, Some (unknown_token sel)))
  /\ (forall f' e, SetFormat f template = Ret (f', Some e) ->
                   f' = f /\ formatTokens f' = formatTokens f).
Proof.
  destruct (SetFormat_cases f template)
    as [[Hnil E]|[(Hne & Hall & tokens & E)|(Hne & sel & Hin & Hnone & E)]].
  - split; [|split].
    + split; [intros _; now apply FindAll_nil_iff | intros _; exact E].
    + intros (sel & Hin & _). unfold selectors in Hin. rewrite Hnil in Hin.
      contradiction.
    + intros f' e H. rewrite E in H. injection H as <- _. now split.
  - split; [|split].
    + split.
      * intro H. rewrite E in H. discriminate.
      * intro Hno. apply FindAll_nil_iff in Hno. contradiction.
    + intros (sel & Hin & Hnone). rewrite Forall_forall in Hall.
      exfalso. exact (Hall sel Hin Hnone).
    + intros f' e H. rewrite E in H. discriminate.
  - split; [|split].
    + split.
      * intro H. rewrite E in H. unfold unknown_token, invalid_template in H.
        discriminate.
      * intro Hno. apply FindAll_nil_iff in Hno. contradiction.
    + intros _. now exists sel.
    + intros f' e H. rewrite E in H. injection H as <- _. now split.
Qed.

(** C6: built from "{name}" and recompiled with "{level}", the formatter
    has the tokens of the new template and yet [GetFormat] still returns
    "{name}": [SetFormat] stores the tokens only. *)
Theorem SetFormat_keeps_old_formatString :
  exists f f',
    NewTemplateFormatter "{name}" = Ret (Some f, None)
    /\ SetFormat f "{level}" = Ret (f', None)
    /\ formatTokens f' = [TInt tfLevel]
    /\ GetFormat f' = "{name}"
    /\ GetFormat f' <> "{level}".
Proof.
  eexists. eexists.
  split; [vm_compute; reflexivity|].
  split; [vm_compute; reflexivity|].
  split; [reflexivity|]. split; [reflexivity|]. discriminate.
Qed.

(** ** Format *)

Lemma Format_of_NOTSET (LevelName : Level -> string) (f : TemplateFormatter) (r : Rec.t) :
  Rec.Level r = NOTSET -> Format LevelName f r = ("", Some ErrorNotSet).
Proof. intro H. unfold Format. now rewrite H. Qed.

(** C8: whatever the template, the time, the name and the message, [Format]
    on a record of level [NOTSET] returns the empty byte sequence with
    [ErrorNotSet], the token loop not being entered. *)
Theorem Format_NOTSET_is_an_error (LevelName : Level -> string) (f : TemplateFormatter)
        (time : Time) (name message : string) :
  Format LevelName f (Rec.mk time name NOTSET message) = ("", Some ErrorNotSet).
Proof. now apply Format_of_NOTSET. Qed.

(** C4: compiled from "{name<5}", "{name>5}" and "{name<2}", the formatter
    renders the name "abc" as "abc  ", "abc  " and "ab": under ">" the
    alignment token follows the width token, which alone sets the pending
    verb, and the field is padded on the right all the same. *)
Theorem Format_right_alignment_pads_right :
  exists fl fr ft,
    NewTemplateFormatter "{name<5}" = Ret (Some fl, None)
    /\ NewTemplateFormatter "{name>5}" = Ret (Some fr, None)
    /\ NewTemplateFormatter "{name<2}" = Ret (Some ft, None)
    /\ formatTokens fr = [TInt 0x500; TInt tfAlignRight; TInt tfName]
    /\ Format Sample.LevelName fl Sample.abc = ("abc  ", None)
    /\ Format Sample.LevelName fr Sample.abc = ("abc  ", None)
    /\ Format Sample.LevelName ft Sample.abc = ("ab", None).
Proof.
  do 3 eexists.
  split; [vm_compute; reflexivity|].
  split; [vm_compute; reflexivity|].
  split; [vm_compute; reflexivity|].
  repeat split; vm_compute; reflexivity.
Qed.

(** ** Padding *)





Lemma RuneCountInString_ascii (s : string) :
  all_ascii s = true -> RuneCountInString s = String.length s.
Proof.
  induction s as [|c s IH]; [reflexivity|].
  cbn [all_ascii RuneCountInString String.length]. intro H.
  apply andb_prop in H as [H1 H2]. rewrite H1, (IH H2). reflexivity.
Qed.

Lemma substring_whole (s : string) : substring 0 (String.length s) s = s.
Proof. induction s as [|c s IH]; simpl; [reflexivity | now rewrite IH]. Qed.


(** ** The token loop *)

Ltac selector_cases n H :=
  unfold is_selector in H;
  assert (n = 0 \/ n = 1 \/ n = 2 \/ n = 3 \/ n = 4 \/ n = 5)%Z
    as [->|[->|[->|[->|[->| ->]]]]] by lia.

(** A field selector leaves the pending width and the parts to
    [Format_step]. *)
Lemma Format_switch_selector (LevelName : Level -> string) (f : TemplateFormatter)
      (r : Rec.t) (lineColor : string) (st : fstate) (n : Z) :
  is_selector n ->
  let st' := snd (Format_switch LevelName f r lineColor st n) in
  parts st' = parts st /\ alignFmt st' = alignFmt st /\ width st' = width st.
Proof.
  intro Hn. selector_cases n Hn; cbn; try (repeat split; reflexivity).
  destruct (len (processedMessage st)); [|now repeat split].
  destruct (len (Rec.Message r)); now repeat split.
Qed.

(** A field selector that selects no text leaves the locals as they were. *)
Lemma Format_switch_empty (LevelName : Level -> string) (f : TemplateFormatter)
      (r : Rec.t) (lineColor : string) (st : fstate) (n : Z) :
  is_selector n ->
  len (fst (Format_switch LevelName f r lineColor st n)) = 0 ->
  snd (Format_switch LevelName f r lineColor st n) = st.
Proof.
  intros Hn. selector_cases n Hn; cbn; try reflexivity.
  destruct (len (processedMessage st)) eqn:Hp; [|reflexivity].
  destruct (len (Rec.Message r)); [reflexivity|].
  cbn. intro Hs. apply length_zero_iff in Hs. rewrite Hs.
  apply length_zero_iff in Hp.
  destruct st; cbn in *. now rewrite Hp.
Qed.

Lemma Format_step_selector (LevelName : Level -> string) (f : TemplateFormatter)
      (r : Rec.t) (lineColor : string) (st : fstate) (n : Z) :
  is_selector n ->
  let s := fst (Format_switch LevelName f r lineColor st n) in
  let st' := Format_step LevelName f r lineColor st (TInt n) in
  (0 < len s ->
   match alignFmt st with
   | NoFmt => parts st' = parts st ++ [s] /\ alignFmt st' = NoFmt
   | PadFmt minus wid =>
       let padded := Sprintf_pad minus wid s in
       parts st' = parts st
                   ++ [if (width st <? Z.of_nat (len padded))%Z
                       then slice padded 0 (Z.to_nat (width st))
                       else padded]
       /\ alignFmt st' = NoFmt /\ width st' = 0%Z
   end)
  /\ (len s = 0 -> st' = st).
Proof.
  intros Hn s st'. subst s st'. unfold Format_step.
  pose proof (Format_switch_selector LevelName f r lineColor st n Hn) as Hk.
  pose proof (Format_switch_empty LevelName f r lineColor st n Hn) as He.
  destruct (Format_switch LevelName f r lineColor st n) as [s st1].
  cbn [fst snd] in *. destruct Hk as (Hp & Ha & Hw).
  split.
  - intro Hs. apply Nat.ltb_lt in Hs. rewrite Hs, Ha, Hw, Hp.
    destruct (alignFmt st); cbn; repeat split; now rewrite ?Ha.
  - intro Hs. rewrite Hs. cbn. now apply He.
Qed.

(** C7, as the code has it: a field selector that renders non-empty text
    consumes the pending width and alignment (none is pending after it, and a
    field rendered with none pending is appended as it is); a field that
    renders as the empty string changes nothing, the pending width
    included. *)
Theorem pending_width_consumed_by_rendered_field
        (LevelName : Level -> string) (f : TemplateFormatter) (r : Rec.t)
        (lineColor : string) (st : fstate) (n : Z) :
  is_selector n ->
  let s := fst (Format_switch LevelName f r lineColor st n) in
  let st' := Format_step LevelName f r lineColor st (TInt n) in
  (0 < len s -> alignFmt st' = NoFmt)
  /\ (0 < len s -> alignFmt st <> NoFmt -> width st' = 0%Z)
  /\ (0 < len s -> alignFmt st = NoFmt -> parts st' = parts st ++ [s])
  /\ (len s = 0 -> st' = st).
Proof.
  intros Hn s st'.
  destruct (Format_step_selector LevelName f r lineColor st n Hn) as [Hne He].
  fold s st' in Hne, He.
  repeat split.
  - intro Hs. specialize (Hne Hs).
    destruct (alignFmt st); cbv zeta in Hne; intuition congruence.
  - intros Hs Hp. specialize (Hne Hs).
    destruct (alignFmt st); cbv zeta in Hne; intuition congruence.
  - intros Hs Hp. specialize (Hne Hs). rewrite Hp in Hne. intuition congruence.
  - exact He.
Qed.

Lemma pending_width_consumed_by_rendered_field_witness :
  is_selector tfName
  /\ let st := mkFstate [] (PadFmt true 5) 5 "" in
     let s := fst (Format_switch Sample.LevelName Sample.message_formatter
                                 Sample.abc "" st tfName) in
     let st' := Format_step Sample.LevelName Sample.message_formatter
                            Sample.abc "" st (TInt tfName) in
     (0 < len s -> alignFmt st' = NoFmt)
     /\ (0 < len s -> alignFmt st <> NoFmt -> width st' = 0%Z)
     /\ (0 < len s -> alignFmt st = NoFmt -> parts st' = parts st ++ [s])
     /\ (len s = 0 -> st' = st).
Proof.
  split.
  - unfold is_selector, tfName. lia.
  - apply (pending_width_consumed_by_rendered_field
             Sample.LevelName Sample.message_formatter Sample.abc ""
             (mkFstate [] (PadFmt true 5) 5 "") tfName).
    unfold is_selector, tfName. lia.
Defined.

(** C7, as the claim has it, fails: in "{message<5}{name}" the width of
    the message field, the message being empty, is still pending after the
    message token and pads the name. *)
Lemma pending_width_survives_empty_field :
  exists f,
    NewTemplateFormatter "{message<5}{name}" = Ret (Some f, None)
    /\ formatTokens f = [TInt 0x500; TInt tfMessage; TInt tfName]
    /\ alignFmt (fold_left (Format_step Sample.LevelName f Sample.abc_silent "")
                           [TInt 0x500; TInt tfMessage]
                           (mkFstate [] NoFmt 0 ""))
       = PadFmt true 5
    /\ Format Sample.LevelName f Sample.abc_silent = ("abc  ", None).
Proof.
  eexists. split; [vm_compute; reflexivity|].
  repeat split; vm_compute; reflexivity.
Qed.

(** ** The width directive *)









(** ** The handler in service *)

(** ** The file system *)

Lemma FileId_eqb_refl (id : FileId) : FileId_eqb id id = true.
Proof. unfold FileId_eqb. now rewrite !Z.eqb_refl. Qed.

Lemma content_set_content (fs : list (FileId * string)) (id : FileId) (c : string) :
  OS.content (OS.set_content fs id c) id = c.
Proof.
  induction fs as [|[k c0] fs IH]; simpl.
  - now rewrite FileId_eqb_refl.
  - destruct (FileId_eqb k id) eqn:E; simpl; rewrite E; [reflexivity | exact IH].
Qed.

(** ** The consumer *)

Lemma lines_app (formatter : Formatter) (a b : list Rec.t) :
  Pipeline.lines formatter (a ++ b)
  = Pipeline.lines formatter a +++ Pipeline.lines formatter b.
Proof.
  induction a as [|r a IH]; simpl; [reflexivity|].
  now rewrite IH, append_assoc.
Qed.

Lemma lines_snoc (formatter : Formatter) (a : list Rec.t) (r : Rec.t) :
  Pipeline.lines formatter (a ++ [r])
  = Pipeline.lines formatter a +++ Pipeline.line formatter r.
Proof. rewrite lines_app. simpl. now rewrite append_nil_r. Qed.


(** On a sink that is an open file, the case body appends the line of the
    record to that file. *)
Lemma committer_recv_appends (formatter : Formatter) (fd : nat) (id : FileId)
      (h : StreamHandler) (rec : Rec.t) (w : World) :
  StreamFormatter h = Some formatter ->
  Writer h = WFile (Some fd) ->
  OS.lookup_fd (fds w) fd = Some id ->
  exists w',
    Stream.committer_recv h rec w = Ret (h, w')
    /\ fds w' = fds w
    /\ OS.content (files w') id
       = OS.content (files w) id +++ Pipeline.line formatter rec.
Proof.
  intros Hf Hw Hfd.
  unfold Stream.committer_recv, Stream.Formatter, Stream.onPreWrite, Pipeline.line.
  rewrite Hf. destruct (formatter rec) as [msg [e|]].
  - destruct e; eexists; (split; [reflexivity|]); cbn; now rewrite append_nil_r.
  - rewrite Hw. cbn [Stream.Writer_Write bind OS.File_Write]. rewrite Hfd.
    eexists. split; [reflexivity|]. cbn. split; [reflexivity|].
    apply content_set_content.
Qed.

Lemma lines_zero (formatter : Formatter) (j : nat) :
  Pipeline.line formatter zeroRecord = "" ->
  Pipeline.lines formatter (repeat zeroRecord j) = "".
Proof.
  intro Hzero. induction j as [|j IH]; [reflexivity|].
  cbn [repeat Pipeline.lines]. now rewrite Hzero, IH.
Qed.

(** The record at the head of what is left of a list after its first [k]
    elements is the one the first [S k] elements end with. *)
Lemma skipn_cons_inv {A : Type} (k : nat) :
  forall (l : list A) (x : A) (q : list A),
    skipn k l = x :: q ->
    firstn (S k) l = firstn k l ++ [x]
    /\ skipn (S k) l = q
    /\ S k <= List.length l.
Proof.
  induction k as [|k IH]; intros l x q H.
  - cbn in H. subst l. cbn. split_conj; try reflexivity. lia.
  - destruct l as [|y l]; [discriminate|]. cbn [skipn] in H.
    destruct (IH l x q H) as (Hf & Hs & Hl).
    split_conj.
    + change (firstn (S (S k)) (y :: l)) with (y :: firstn (S k) l).
      rewrite Hf. reflexivity.
    + exact Hs.
    + cbn [List.length]. lia.
Qed.

Lemma firstn_snoc_within {A : Type} (k : nat) (l : list A) (x : A) :
  k <= List.length l ->
  firstn k (l ++ [x]) = firstn k l /\ skipn k (l ++ [x]) = skipn k l ++ [x].
Proof.
  intro Hk. rewrite firstn_app, skipn_app.
  replace (k - List.length l) with 0 by lia. cbn [firstn skipn].
  now rewrite app_nil_r.
Qed.

(** A list that ends where the first [k] elements of [l] end is itself made
    of first elements of [l]. *)
Lemma firstn_of_prefix {A : Type} (k : nat) (l l1 : list A) (x : A) :
  l1 ++ [x] = firstn k l ->
  l1 = firstn (List.length l1) l /\ List.length l1 <= k.
Proof.
  intro H.
  assert (Hlen : List.length (l1 ++ [x]) <= k)
    by (rewrite H; apply firstn_le_length).
  rewrite length_app in Hlen. cbn in Hlen.
  split; [|lia].
  rewrite <- (firstn_skipn k l), <- H, <- app_assoc.
  rewrite firstn_app, Nat.sub_diag, firstn_all. cbn [firstn].
  now rewrite app_nil_r.
Qed.

Lemma step_in_service (formatter : Formatter) (fd : nat) (id : FileId)
      (before : string) (s s' : Sys) (a : action) :
  in_service formatter fd id before s ->
  Pipeline.step s a = Some s' ->
  in_service formatter fd id before s'.
Proof.
  unfold in_service, Pipeline.in_hand.
  intros (Hf & Hw & Hfd & k & j & written & Hk & Hrecv & Hchan & Hzero & Hcontent)
         Hstep.
  unfold Pipeline.step in Hstep. destruct (crashed s); [discriminate|].
  destruct a as [rec|i| | | | |].
  - (* Handle: the test *)
    unfold Pipeline.Handle_enter in Hstep.
    destruct (negb (StreamShutdown (hdl s))); injection Hstep as <-; cbn;
      split_conj; try assumption; exists k, j, written; split_conj; assumption.
  - (* Handle: the send *)
    unfold Pipeline.Handle_send in Hstep.
    destruct (nth_error (sending s) i) as [rec|]; [|discriminate].
    destruct (CommitChannel_closed (hdl s)) eqn:Hclosed.
    + injection Hstep as <-; cbn. split_conj; try assumption.
      exists k, j, written. rewrite Hclosed. split_conj; assumption.
    + destruct (List.length (CommitChannel (hdl s)) <? CommitChannel_cap);
        [|discriminate].
      injection Hstep as <-; cbn. split_conj; try assumption.
      assert (Hj : j = 0).
      { destruct j as [|j]; [reflexivity|].
        destruct Hzero as [Hc _]; [lia | congruence]. }
      subst j.
      destruct (firstn_snoc_within k (enqueued s) rec Hk) as [Hfn Hsn].
      exists k, 0, written. rewrite Hfn, Hsn, Hchan, length_app.
      split_conj; try assumption; try reflexivity; [lia | intro; lia].
  - (* Shutdown: entry *)
    unfold Pipeline.Shutdown_enter in Hstep.
    destruct (negb (StreamShutdown (hdl s))).
    + destruct (caller s); try discriminate.
      injection Hstep as <-; cbn. split_conj; try assumption.
      exists k, j, written. split_conj; assumption.
    + injection Hstep as <-. split_conj; try assumption.
      exists k, j, written. split_conj; assumption.
  - (* select: stop *)
    unfold Pipeline.committer_stop in Hstep.
    destruct (holding s) eqn:Hhold; [discriminate|].
    destruct (caller s);
      try (destruct (CommitterStop_closed (hdl s)); [|discriminate]);
      injection Hstep as <-; cbn; rewrite ?Hhold;
      split_conj; try assumption; exists k, j, written; split_conj; assumption.
  - (* Shutdown: close and return *)
    unfold Pipeline.Shutdown_close in Hstep.
    destruct (caller s); try discriminate.
    injection Hstep as <-; cbn. split_conj; try assumption.
    exists k, j, written. split_conj; try assumption.
    intro Hj. destruct (Hzero Hj) as [_ Hq]. now split.
  - (* select: receive *)
    unfold Pipeline.committer_receive, Pipeline.committer_take in Hstep.
    destruct (holding s) eqn:Hhold; [discriminate|].
    rewrite app_nil_r in Hrecv.
    destruct (CommitChannel (hdl s)) as [|rec q] eqn:Hq.
    + destruct (CommitChannel_closed (hdl s)) eqn:Hclosed; [|discriminate].
      injection Hstep as <-; cbn. split_conj; try assumption.
      exists k, (S j), written. rewrite Hq, Hclosed.
      split_conj; try assumption; try (intros _; now split).
      rewrite Hrecv, <- app_assoc. f_equal. cbn [repeat]. symmetry.
      apply repeat_cons.
    + injection Hstep as <-; cbn. split_conj; try assumption.
      assert (Hj : j = 0).
      { destruct j as [|j]; [reflexivity|].
        destruct Hzero as [_ Hc]; [lia | discriminate]. }
      subst j. cbn [repeat] in Hrecv. rewrite app_nil_r in Hrecv.
      symmetry in Hchan.
      destruct (skipn_cons_inv k (enqueued s) rec q Hchan) as (Hfn & Hsn & Hlen).
      subst written.
      exists (S k), 0, (firstn k (enqueued s)). rewrite Hfn, Hsn. cbn [repeat].
      rewrite app_nil_r.
      split_conj; try assumption; try reflexivity. intro; lia.
  - (* the body of the receive case *)
    unfold Pipeline.committer_commit in Hstep.
    destruct (holding s) as [rec|] eqn:Hhold; [|discriminate].
    destruct (committer_recv_appends formatter fd id (hdl s) rec (world s)
                                     Hf Hw Hfd) as (w' & E & Hfds & Hc').
    rewrite E in Hstep. injection Hstep as <-; cbn.
    rewrite Hfds. split_conj; try assumption.
    exists k, j, (written ++ [rec]). rewrite app_nil_r.
    split_conj; try assumption.
    rewrite Hc', Hcontent, lines_snoc. now rewrite append_assoc.
Qed.

Lemma run_in_service (formatter : Formatter) (fd : nat) (id : FileId)
      (before : string) (acts : list action) :
  forall s s',
    in_service formatter fd id before s ->
    Pipeline.run s acts = Some s' ->
    in_service formatter fd id before s'.
Proof.
  induction acts as [|a acts IH]; intros s s' Hs Hrun; simpl in Hrun.
  - now injection Hrun as <-.
  - destruct (Pipeline.step s a) as [s1|] eqn:E; [|discriminate].
    apply (IH s1 s'); [|exact Hrun].
    eapply step_in_service; eassumption.
Qed.

Lemma boot_in_service (formatter : Formatter) (w : World) (fd : nat) (id : FileId) :
  OS.lookup_fd (fds w) fd = Some id ->
  in_service formatter fd id (OS.content (files w) id) (Pipeline.boot w fd formatter).
Proof.
  intro Hfd. unfold in_service, Pipeline.boot; cbn.
  split_conj; try assumption; try reflexivity.
  exists 0, 0, []. cbn. split_conj; try reflexivity; try lia.
  now rewrite append_nil_r.
Qed.

Lemma in_service_sink (formatter : Formatter) (fd : nat) (id : FileId)
      (before : string) (s : Sys) :
  in_service formatter fd id before s ->
  Pipeline.sink s = OS.content (files (world s)) id.
Proof.
  intros (_ & Hw & Hfd & _). unfold Pipeline.sink. now rewrite Hw, Hfd.
Qed.

(** With a formatter that rejects the zero record, what is written is the
    lines of first records sent. *)
Lemma in_service_prefix (formatter : Formatter) (s : Sys) (k j : nat)
      (written : list Rec.t) :
  Pipeline.line formatter zeroRecord = "" ->
  written ++ Pipeline.in_hand s = firstn k (enqueued s) ++ repeat zeroRecord j ->
  exists n,
    n <= k
    /\ Pipeline.lines formatter written
       = Pipeline.lines formatter (firstn n (enqueued s)).
Proof.
  intros Hzero Hrecv. unfold Pipeline.in_hand in Hrecv.
  destruct (holding s) as [rec|].
  - destruct j as [|j].
    + cbn [repeat] in Hrecv. rewrite app_nil_r in Hrecv.
      destruct (firstn_of_prefix k (enqueued s) written rec Hrecv) as [Hw Hl].
      exists (List.length written). split; [exact Hl|]. now rewrite <- Hw.
    + cbn [repeat] in Hrecv. rewrite repeat_cons, app_assoc in Hrecv.
      apply app_inj_tail in Hrecv as [Hrecv _].
      exists k. split; [lia|].
      now rewrite Hrecv, lines_app, lines_zero, append_nil_r.
  - rewrite app_nil_r in Hrecv. exists k. split; [lia|].
    now rewrite Hrecv, lines_app, lines_zero, append_nil_r.
Qed.

(** C3, as the code has it: from a handler with a formatter and an open
    file as its sink, whatever the producers, the caller of [Shutdown] and
    the consumer have done, the consumer has received the first [k] of the
    records sent by [Handle], in the order sent, and [j] zero records after
    them, which only a closed and empty channel yields; the sink holds, after
    what it held before, the lines of the records received, in that order,
    the last one apart while the consumer holds it; the other records sent
    are in the channel.  With a formatter that rejects the zero record, as a
    template formatter does, the sink holds the lines of first records sent
    and nothing else.  [Shutdown] does not wait for any of this: once the
    consumer has taken the stop signal it closes the channels and returns,
    with the channel, the record held and the sink as they are. *)
Theorem committer_writes_fifo_prefix
        (formatter : Formatter) (w : World) (fd : nat) (id : FileId)
        (acts : list action) (s : Sys) :
  OS.lookup_fd (fds w) fd = Some id ->
  Pipeline.run (Pipeline.boot w fd formatter) acts = Some s ->
  (exists k j written,
      k <= List.length (enqueued s)
      /\ written ++ Pipeline.in_hand s
         = firstn k (enqueued s) ++ repeat zeroRecord j
      /\ List.length (Pipeline.in_hand s) <= 1
      /\ CommitChannel (hdl s) = skipn k (enqueued s)
      /\ (0 < j -> CommitChannel_closed (hdl s) = true
                   /\ CommitChannel (hdl s) = [])
      /\ Pipeline.sink s
         = OS.content (files w) id +++ Pipeline.lines formatter written
      /\ (Pipeline.line formatter zeroRecord = "" ->
          exists n,
            n <= k
            /\ Pipeline.sink s
               = OS.content (files w) id
                 +++ Pipeline.lines formatter (firstn n (enqueued s))))
  /\ (crashed s = false -> caller s = SdHandshaken ->
      exists s',
        Pipeline.step s Shutdown_Close = Some s'
        /\ caller s' = SdReturned
        /\ CommitChannel (hdl s') = CommitChannel (hdl s)
        /\ Pipeline.in_hand s' = Pipeline.in_hand s
        /\ Pipeline.sink s' = Pipeline.sink s).
Proof.
  intros Hfd Hrun.
  pose proof (run_in_service _ fd id _ acts _ s
                             (boot_in_service _ w fd id Hfd) Hrun) as Hs.
  split.
  - rewrite (in_service_sink _ _ _ _ _ Hs).
    destruct Hs as (_ & _ & _ & k & j & written & Hk & Hrecv & Hchan & Hzero
                    & Hcontent).
    exists k, j, written. split_conj; try assumption.
    + unfold Pipeline.in_hand. destruct (holding s); cbn; lia.
    + intro Hz.
      destruct (in_service_prefix formatter s k j written Hz Hrecv) as (n & Hn & E).
      exists n. split; [exact Hn|]. now rewrite Hcontent, E.
  - intros Hc Hcaller. unfold Pipeline.step, Pipeline.Shutdown_close.
    rewrite Hc, Hcaller. eexists. split; [reflexivity|].
    now split_conj.
Qed.

Lemma committer_writes_fifo_prefix_witness :
  OS.lookup_fd (fds Sample.disk_open) 3 = Some (1, 10)%Z
  /\ Pipeline.run (Pipeline.boot Sample.disk_open 3
                                 (Format Sample.LevelName Sample.message_formatter))
                  shutdown_midway
     = Some after_shutdown_midway
  /\ caller after_shutdown_midway = SdReturned
  /\ enqueued after_shutdown_midway
     = [Sample.say "one"; Sample.say "two"; Sample.say "three"]
  /\ Pipeline.in_hand after_shutdown_midway = [Sample.say "two"]
  /\ CommitChannel (hdl after_shutdown_midway) = [Sample.say "three"]
  /\ Pipeline.sink after_shutdown_midway = "one" +++ newline
  /\ exists k j written,
      k <= List.length (enqueued after_shutdown_midway)
      /\ written ++ Pipeline.in_hand after_shutdown_midway
         = firstn k (enqueued after_shutdown_midway) ++ repeat zeroRecord j
      /\ List.length (Pipeline.in_hand after_shutdown_midway) <= 1
      /\ CommitChannel (hdl after_shutdown_midway)
         = skipn k (enqueued after_shutdown_midway)
      /\ (0 < j -> CommitChannel_closed (hdl after_shutdown_midway) = true
                   /\ CommitChannel (hdl after_shutdown_midway) = [])
      /\ Pipeline.sink after_shutdown_midway
         = OS.content (files Sample.disk_open) (1, 10)%Z
           +++ Pipeline.lines (Format Sample.LevelName Sample.message_formatter)
                              written
      /\ (Pipeline.line (Format Sample.LevelName Sample.message_formatter)
                        zeroRecord = "" ->
          exists n,
            n <= k
            /\ Pipeline.sink after_shutdown_midway
               = OS.content (files Sample.disk_open) (1, 10)%Z
                 +++ Pipeline.lines
                       (Format Sample.LevelName Sample.message_formatter)
                       (firstn n (enqueued after_shutdown_midway))).
Proof.
  split; [reflexivity|]. split; [reflexivity|].
  split; [reflexivity|]. split; [reflexivity|].
  split; [reflexivity|]. split; [reflexivity|].
  split; [reflexivity|].
  apply (committer_writes_fifo_prefix
           (Format Sample.LevelName Sample.message_formatter)
           Sample.disk_open 3 (1, 10)%Z shutdown_midway after_shutdown_midway);
    reflexivity.
Defined.

(** C3, as the claim has it, fails: one record is sent, [Shutdown()] is
    called and returns, the consumer having taken the stop signal at its
    [select]; the sink is still empty and the record still in the channel,
    though its line is "hello\n". *)
Lemma Shutdown_returns_before_the_queue_is_written :
  Pipeline.run Sample.pipeline shutdown_first = Some after_shutdown
  /\ caller after_shutdown = SdReturned
  /\ crashed after_shutdown = false
  /\ enqueued after_shutdown = [Sample.abc]
  /\ CommitChannel (hdl after_shutdown) = [Sample.abc]
  /\ Pipeline.in_hand after_shutdown = []
  /\ Pipeline.sink after_shutdown = ""
  /\ Pipeline.lines (Format Sample.LevelName Sample.message_formatter) [Sample.abc]
     = "hello" +++ newline.
Proof. repeat split; vm_compute; reflexivity. Qed.

(** Once the channels are closed both cases of the [select] are ready for
    ever: the consumer is never blocked, and it has nowhere to exit to. *)
Lemma committer_spins_after_close (s : Sys) :
  crashed s = false ->
  holding s = None ->
  CommitterStop_closed (hdl s) = true ->
  CommitChannel_closed (hdl s) = true ->
  caller s = SdReturned ->
  Pipeline.step s Select_Stop = Some s
  /\ exists s', Pipeline.step s Select_Recv = Some s'.
Proof.
  intros Hc Hhold Hstop Hchan Hcaller. unfold Pipeline.step. rewrite Hc. split.
  - unfold Pipeline.committer_stop. now rewrite Hhold, Hcaller, Hstop.
  - unfold Pipeline.committer_receive, Pipeline.committer_take.
    rewrite Hhold, Hchan.
    destruct (CommitChannel (hdl s)) as [|rec q]; eauto.
Qed.

(** C2: after [Handle(abc)], [Shutdown()] has returned with nothing
    written.  The consumer is still at its [select]: it then receives the
    record and writes "hello\n" to the sink, and goes on taking either case
    of the [select], as the longer run shows; nothing has crashed. *)
Theorem committer_writes_after_Shutdown_returned :
  option_map caller (Pipeline.run Sample.pipeline shutdown_first)
  = Some SdReturned
  /\ option_map Pipeline.sink (Pipeline.run Sample.pipeline shutdown_first)
     = Some ""
  /\ option_map Pipeline.sink
                (Pipeline.run Sample.pipeline
                              (shutdown_first ++ [Select_Recv; Commit]))
     = Some ("hello" +++ newline)
  /\ option_map (fun s => (Pipeline.sink s, crashed s, caller s))
                (Pipeline.run Sample.pipeline
                              (shutdown_first
                               ++ [Select_Recv; Commit; Select_Stop;
                                   Select_Recv; Commit; Select_Stop]))
     = Some ("hello" +++ newline, false, SdReturned).
Proof. repeat split; vm_compute; reflexivity. Qed.

(** ** The watched file *)

(** A failed stat makes [statFile], and [fileHasMoved] with it, panic. *)
Lemma fileHasMoved_stat_fails (h : Watched.WatchedFileHandler) (w : World) :
  OS.Stat w (Watched.filename h) = None ->
  exists msg, Watched.statFile h w = Panic msg
              /\ Watched.fileHasMoved h w = Panic msg.
Proof.
  intro H. unfold Watched.fileHasMoved, Watched.statFile. rewrite H.
  eexists. split; reflexivity.
Qed.

(** C5: a watched handler opened on "app.log" has captured the identity
    (1, 10); once the path is removed the stat fails, and [statFile] panics
    on the nil [FileInfo] where the claim has it return (0, 0):
    [fileHasMoved] returns nothing. *)
Theorem fileHasMoved_panics_on_missing_file :
  exists h w,
    Watched.NewWatchedFileHandler "app.log" true false Sample.disk
    = Ret (Some h, w, None)
    /\ (Watched.dev h, Watched.inode h) = (1, 10)%Z
    /\ OS.Stat (OS.remove_path w "app.log") "app.log" = None
    /\ Watched.statFile h (OS.remove_path w "app.log") = Panic nil_dereference
    /\ Watched.fileHasMoved h (OS.remove_path w "app.log") = Panic nil_dereference.
Proof.
  do 2 eexists. split; [vm_compute; reflexivity|].
  repeat split; vm_compute; reflexivity.
Qed.

(** C1: a watched handler is opened on "app.log" (inode 10) and given a
    formatter; the path is then given to a new file (inode 11), which
    [fileHasMoved] sees.  The consumer's next write goes through the old
    descriptor all the same: the handler keeps its writer (descriptor 3, open
    on inode 10) and the identity it captured, "hello\n" lands in the file
    of inode 10, and the file now at the path stays empty. *)
Theorem watched_consumer_writes_to_the_old_file :
  (r <- rotation ;; Ret (observe_rotation r))
  = Ret (true, Some (WFile (Some 3)), (1, 10)%Z,
         Some (1, 10)%Z, Some (1, 11)%Z, "hello" +++ newline, "").
Proof. vm_compute. reflexivity. Qed.

(** * Further properties *)

(** ** What SetFormat accepts and installs *)

Lemma tokenToValue_known (sel : string) :
  tokenToValue sel <> None <-> In sel selector_names.
Proof.
  unfold tokenToValue, selector_names. split.
  - intro H.
    repeat match goal with
           | H : context [(sel =? ?k)%string] |- _ =>
               destruct (String.eqb_spec sel k); [subst; simpl; tauto|]
           end.
    contradiction.
  - intros [<-|[<-|[<-|[<-|[<-|[<-|[]]]]]]]; discriminate.
Qed.

Lemma tokenToValue_selector (sel : string) (v : Z) :
  tokenToValue sel = Some v -> is_selector v.
Proof.
  unfold tokenToValue, is_selector.
  repeat match goal with
         | |- context [(sel =? ?k)%string] => destruct (sel =? k)%string
         end; intro H; inversion H; subst;
    unfold tfTime, tfTimeMilliseconds, tfName, tfBaseName, tfLevel, tfMessage; lia.
Qed.

Lemma FindAll_nonempty_iff (t : string) :
  templatePtn_FindAllStringIndex t <> [] <-> has_span t.
Proof.
  split.
  - intro Hne.
    destruct (templatePtn_FindAllStringIndex t) as [|[i j] m] eqn:E; [contradiction|].
    apply (span_at_has_span t i j), FindAll_sound. rewrite E. now left.
  - intros Hs Hnil. apply FindAll_nil_iff in Hnil. contradiction.
Qed.

(** X1: [SetFormat] returns on every template, never panics on an index
    of the submatch; it succeeds exactly on the templates that have a
    bracketed span and whose spans all select one of the six names; and a
    success changes the tokens only: the stored template string, the level
    colours and the message processor stay. *)
Theorem SetFormat_succeeds_iff (f : TemplateFormatter) (template : string) :
  (exists f' e, SetFormat f template = Ret (f', e))
  /\ ((exists f', SetFormat f template = Ret (f', None))
      <-> has_span template
          /\ Forall (fun sel => In sel selector_names) (selectors template))
  /\ (forall f', SetFormat f template = Ret (f', None) ->
        formatString f' = formatString f
        /\ levelColoring f' = levelColoring f
        /\ processMessage f' = processMessage f).
Proof.
  destruct (SetFormat_cases f template)
    as [[Hnil E]|[(Hne & Hall & tokens & E)|(Hne & sel & Hin & Hnone & E)]].
  - split; [eauto|]. split.
    + split.
      * intros [f' H]. rewrite E in H. discriminate.
      * intros [Hs _]. apply FindAll_nonempty_iff in Hs. contradiction.
    + intros f' H. rewrite E in H. discriminate.
  - split; [eauto|]. split.
    + split; [|eauto]. intros _. split; [now apply FindAll_nonempty_iff|].
      eapply Forall_impl; [|exact Hall]. intros a. apply tokenToValue_known.
    + intros f' H. rewrite E in H. injection H as <-. now repeat split.
  - split; [eauto|]. split.
    + split.
      * intros [f' H]. rewrite E in H. discriminate.
      * intros [_ Hall]. rewrite Forall_forall in Hall.
        apply Hall, tokenToValue_known in Hin. contradiction.
    + intros f' H. rewrite E in H. discriminate.
Qed.

(** ** Text around the spans *)

Lemma substring_app_inside (s tail : string) :
  forall i n, i + n <= String.length s ->
              substring i n (s +++ tail) = substring i n s.
Proof.
  induction s as [|c s IH]; intros i n H; simpl in *.
  - assert (i = 0) by lia. assert (n = 0) by lia. subst.
    destruct tail; reflexivity.
  - destruct i as [|i].
    + destruct n as [|n]; [reflexivity|]. rewrite (IH 0 n) by lia. reflexivity.
    + apply IH. lia.
Qed.

Lemma length_substring (s : string) :
  forall i n, i + n <= String.length s -> String.length (substring i n s) = n.
Proof.
  induction s as [|c s IH]; intros i n H; simpl in *.
  - assert (i = 0) by lia. assert (n = 0) by lia. now subst.
  - destruct i as [|i].
    + destruct n as [|n]; [reflexivity|]. simpl. rewrite (IH 0 n) by lia. reflexivity.
    + apply IH. lia.
Qed.

Lemma slice_app_inside (s tail : string) (lo hi : nat) :
  lo <= hi -> hi <= String.length s ->
  slice (s +++ tail) lo hi = slice s lo hi.
Proof. intros H1 H2. unfold slice. apply substring_app_inside. lia. Qed.

(** A span lies inside the template and is not empty. *)
Lemma span_at_bounds (t : string) (i j : nat) :
  span_at t i j -> i < j /\ j <= String.length t.
Proof.
  intros (a & x & b & -> & -> & -> & _).
  rewrite length_append. simpl. rewrite length_append. simpl. lia.
Qed.

Lemma scan_no_close (tail : string) :
  contains_char "}" tail = false ->
  forall pos opened, templatePtn_scan tail pos opened = [].
Proof.
  induction tail as [|c tail IH]; intros Hc pos opened; simpl in *; [reflexivity|].
  apply orb_false_iff in Hc as [Hc1 Hc2]. rewrite Hc1.
  destruct opened; [now apply IH|].
  destruct (c =? "{")%char; now apply IH.
Qed.

Lemma scan_app_no_close (t tail : string) :
  contains_char "}" tail = false ->
  forall pos opened,
    templatePtn_scan (t +++ tail) pos opened = templatePtn_scan t pos opened.
Proof.
  intro Hc. induction t as [|c t IH]; intros pos opened; simpl.
  - now apply scan_no_close.
  - destruct opened as [start|].
    + destruct (c =? "}")%char; [destruct (S start <? pos)|]; now rewrite IH.
    + destruct (c =? "{")%char; now rewrite IH.
Qed.

(** The loop reads the template inside the spans and between them only. *)
Lemma SetFormat_loop_app (t tail : string) (m : list (nat * nat)) :
  Forall (fun se => fst se < snd se /\ snd se <= String.length t) m ->
  forall last tokens,
    SetFormat_loop (t +++ tail) m last tokens = SetFormat_loop t m last tokens.
Proof.
  induction m as [|[i j] m IH]; intros Hm last tokens; [reflexivity|].
  inversion Hm as [|? ? [Hij Hj] Hm']; subst. simpl in Hij, Hj.
  cbn [SetFormat_loop].
  rewrite (slice_app_inside t tail i j) by lia.
  destruct (Nat.ltb_spec last i) as [Hlt|Hge].
  - rewrite (slice_app_inside t tail last i) by lia.
    destruct (index_submatch _ 1); [|reflexivity]. cbn [bind].
    destruct (index_submatch _ 3); [|reflexivity]. cbn [bind].
    destruct (index_submatch _ 4); [|reflexivity]. cbn [bind].
    destruct (tokenToValue a); [|reflexivity]. now apply IH.
  - destruct (index_submatch _ 1); [|reflexivity]. cbn [bind].
    destruct (index_submatch _ 3); [|reflexivity]. cbn [bind].
    destruct (index_submatch _ 4); [|reflexivity]. cbn [bind].
    destruct (tokenToValue a); [|reflexivity]. now apply IH.
Qed.

Lemma FindAll_bounds (t : string) :
  Forall (fun se => fst se < snd se /\ snd se <= String.length t)
         (templatePtn_FindAllStringIndex t).
Proof.
  apply Forall_forall. intros [i j] Hin.
  now apply span_at_bounds, FindAll_sound.
Qed.

(** X2: text after the last span is not compiled: if a template compiles,
    the template followed by any text without "}" compiles to the same
    formatter, the trailing text leaving no token. *)
Theorem SetFormat_drops_trailing_text
        (f f' : TemplateFormatter) (template tail : string) :
  contains_char "}" tail = false ->
  SetFormat f template = Ret (f', None) ->
  SetFormat f (template +++ tail) = Ret (f', None).
Proof.
  intros Hc H. unfold SetFormat in *.
  unfold templatePtn_FindAllStringIndex in *.
  rewrite (scan_app_no_close template tail Hc).
  destruct (List.length (templatePtn_scan template 0 None) =? 0); [discriminate|].
  rewrite SetFormat_loop_app; [exact H|].
  apply FindAll_bounds.
Qed.

Lemma SetFormat_drops_trailing_text_witness :
  contains_char "}" " and no more" = false
  /\ SetFormat (Sample.formatter "" []) "{level}: {message}"
     = Ret (Sample.formatter "" [TInt tfLevel; TStr ": "; TInt tfMessage], None)
  /\ SetFormat (Sample.formatter "" []) ("{level}: {message}" +++ " and no more")
     = Ret (Sample.formatter "" [TInt tfLevel; TStr ": "; TInt tfMessage], None).
Proof.
  split; [reflexivity|]. split; [reflexivity|].
  apply (SetFormat_drops_trailing_text
           (Sample.formatter "" [])
           (Sample.formatter "" [TInt tfLevel; TStr ": "; TInt tfMessage])
           "{level}: {message}" " and no more"); reflexivity.
Defined.

(** ** The tokens SetFormat installs *)

Lemma width_tokens_ok (alignment digits : string) (tokens : list token) :
  Forall token_ok tokens -> Forall token_ok (width_tokens alignment digits tokens).
Proof.
  intro H. unfold width_tokens.
  destruct ((0 <? len alignment) && (0 <? len digits)); [|exact H].
  destruct (Z.ltb_spec 0 (Atoi digits)) as [Hpos|]; [|exact H].
  assert (Hw : Forall token_ok
                 (tokens ++ [TInt (tfFieldWidth
                                   + Z.shiftl ((if (254 <? Atoi digits)%Z
                                                then 254%Z else Atoi digits) - 1)
                                              tfFieldWidthShift)])).
  { apply Forall_app. split; [exact H|]. constructor; [|constructor].
    right. right.
    exists (if (254 <? Atoi digits)%Z then 254%Z else Atoi digits). split.
    - destruct (Z.ltb_spec 254 (Atoi digits)); lia.
    - unfold tfFieldWidth, tfFieldWidthShift. rewrite Z.shiftl_mul_pow2 by lia. lia. }
  destruct (alignment =? ">")%string; [|exact Hw].
  apply Forall_app. split; [exact Hw|]. constructor; [|constructor].
  right. now left.
Qed.

Lemma SetFormat_loop_tokens_ok (t : string) (m : list (nat * nat)) :
  Forall (fun se => fst se < snd se /\ snd se <= String.length t) m ->
  forall last tokens tokens',
    Forall token_ok tokens ->
    SetFormat_loop t m last tokens = Ret (inr tokens') ->
    Forall token_ok tokens'.
Proof.
  induction m as [|[i j] m IH]; intros Hm last tokens tokens' Hok H.
  - simpl in H. now injection H as <-.
  - inversion Hm as [|? ? [Hij Hj] Hm']; subst. simpl in Hij, Hj.
    cbn [SetFormat_loop] in H.
    destruct (index_submatch _ 1) as [tok|]; [|discriminate]. cbn [bind] in H.
    destruct (index_submatch _ 3) as [al|]; [|discriminate]. cbn [bind] in H.
    destruct (index_submatch _ 4) as [wd|]; [|discriminate]. cbn [bind] in H.
    destruct (tokenToValue tok) as [v|] eqn:Ev; [|discriminate].
    apply (IH Hm' _ _ _) in H; [exact H|].
    apply Forall_app. split.
    + apply width_tokens_ok.
      destruct (Nat.ltb_spec last i) as [Hlt|]; [|exact Hok].
      apply Forall_app. split; [exact Hok|]. constructor; [|constructor].
      simpl. intro Hempty.
      assert (Hl : String.length (slice t last i) = i - last)
        by (unfold slice; apply length_substring; lia).
      rewrite Hempty in Hl. simpl in Hl. lia.
    + constructor; [|constructor]. left. eapply tokenToValue_selector; eassumption.
Qed.

Lemma SetFormat_loop_ends_with_selector (t : string) (m : list (nat * nat)) :
  forall last tokens tokens',
    (m <> [] \/ exists pre v, tokens = pre ++ [TInt v] /\ is_selector v) ->
    SetFormat_loop t m last tokens = Ret (inr tokens') ->
    exists pre v, tokens' = pre ++ [TInt v] /\ is_selector v.
Proof.
  induction m as [|[i j] m IH]; intros last tokens tokens' Hend H.
  - simpl in H. injection H as <-. destruct Hend as [Hne|Hend]; [contradiction|exact Hend].
  - cbn [SetFormat_loop] in H.
    destruct (index_submatch _ 1) as [tok|]; [|discriminate]. cbn [bind] in H.
    destruct (index_submatch _ 3) as [al|]; [|discriminate]. cbn [bind] in H.
    destruct (index_submatch _ 4) as [wd|]; [|discriminate]. cbn [bind] in H.
    destruct (tokenToValue tok) as [v|] eqn:Ev; [|discriminate].
    apply IH in H; [exact H|]. right.
    eexists. exists v. split; [reflexivity|].
    eapply tokenToValue_selector; eassumption.
Qed.

(** X3: the tokens of a compiled template are well formed: a literal is
    never empty, an integer token is a field selector, the alignment token or
    a width token of width 1 to 254 (never 0), and the last token is a field
    selector. *)
Theorem SetFormat_tokens_well_formed (f f' : TemplateFormatter) (template : string) :
  SetFormat f template = Ret (f', None) ->
  Forall token_ok (formatTokens f')
  /\ exists pre v, formatTokens f' = pre ++ [TInt v] /\ is_selector v.
Proof.
  intro H. unfold SetFormat in H.
  destruct (List.length (templatePtn_FindAllStringIndex template) =? 0) eqn:El;
    [discriminate|].
  destruct (SetFormat_loop template (templatePtn_FindAllStringIndex template) 0 [])
    as [[e|tokens]|] eqn:E; cbn [bind] in H; try discriminate.
  injection H as <-. cbn [formatTokens set_formatTokens].
  split.
  - eapply SetFormat_loop_tokens_ok; [apply FindAll_bounds | constructor | exact E].
  - eapply SetFormat_loop_ends_with_selector; [|exact E].
    left. intro Hnil. rewrite Hnil in El. discriminate.
Qed.

Lemma SetFormat_tokens_well_formed_witness :
  SetFormat (Sample.formatter "" []) "[{level>7}] {message}"
  = Ret (Sample.formatter "" [TStr "["; TInt 0x700; TInt tfAlignRight;
                              TInt tfLevel; TStr "] "; TInt tfMessage], None)
  /\ Forall token_ok [TStr "["; TInt 0x700; TInt tfAlignRight;
                      TInt tfLevel; TStr "] "; TInt tfMessage]
  /\ exists pre v, [TStr "["; TInt 0x700; TInt tfAlignRight;
                    TInt tfLevel; TStr "] "; TInt tfMessage] = pre ++ [TInt v]
                   /\ is_selector v.
Proof.
  split; [reflexivity|].
  apply (SetFormat_tokens_well_formed
           (Sample.formatter "" [])
           (Sample.formatter "" [TStr "["; TInt 0x700; TInt tfAlignRight;
                                 TInt tfLevel; TStr "] "; TInt tfMessage])
           "[{level>7}] {message}").
  reflexivity.
Defined.

(** ** NewTemplateFormatter *)

(** X4: [NewTemplateFormatter] returns either a formatter and no error,
    or no formatter and the error of [SetFormat].  The formatter it returns
    has the format as its stored template string, no level colours and the
    identity as its message processor. *)
Theorem NewTemplateFormatter_result (format : string) :
  (exists f,
      NewTemplateFormatter format = Ret (Some f, None)
      /\ GetFormat f = format
      /\ levelColoring f = []
      /\ processMessage f = defaultProcessMessage
      /\ has_span format
      /\ Forall (fun sel => In sel selector_names) (selectors format))
  \/ (NewTemplateFormatter format = Ret (None, Some (invalid_template format))
      /\ ~ has_span format)
  \/ (exists sel,
         NewTemplateFormatter format = Ret (None, Some (unknown_token sel))
         /\ In sel (selectors format) /\ ~ In sel selector_names).
Proof.
  unfold NewTemplateFormatter.
  destruct (SetFormat_cases (mkTemplateFormatter format [] [] defaultProcessMessage)
                            format)
    as [[Hnil E]|[(Hne & Hall & tokens & E)|(Hne & sel & Hin & Hnone & E)]];
    rewrite E; cbn [bind].
  - right. left. split; [reflexivity|]. now apply FindAll_nil_iff.
  - left. eexists. split; [reflexivity|]. cbn.
    repeat split; try reflexivity.
    + now apply FindAll_nonempty_iff.
    + eapply Forall_impl; [|exact Hall]. intros a. apply tokenToValue_known.
  - right. right. exists sel. split; [reflexivity|]. split; [exact Hin|].
    intro Hk. apply tokenToValue_known in Hk. contradiction.
Qed.

(** ** Timestamps *)

Lemma dec_digits_length (fuel : nat) :
  forall n k acc,
    1 <= k -> n < 10 ^ k ->
    String.length (dec_digits fuel n acc) <= k + String.length acc.
Proof.
  induction fuel as [|fuel IH]; intros n k acc Hk Hn; cbn [dec_digits].
  - lia.
  - destruct (Nat.eqb_spec (n / 10) 0) as [Hz|Hnz].
    + simpl. lia.
    + destruct k as [|[|k]]; [lia| |].
      * exfalso. apply Hnz. apply Nat.div_small. simpl in Hn. exact Hn.
      * specialize (IH (n / 10) (S k) (String (digit_char (n mod 10)) acc)).
        cbn [String.length] in IH.
        assert (n / 10 < 10 ^ S k).
        { apply Nat.Div0.div_lt_upper_bound.
          change (10 ^ S (S k)) with (10 * 10 ^ S k) in Hn. exact Hn. }
        specialize (IH ltac:(clear; lia) ltac:(assumption)). clear - IH. lia.
Qed.

Lemma pad_0d_length (wid : nat) (z : Z) :
  1 <= wid -> (0 <= z < Z.of_nat (10 ^ wid))%Z -> len (pad_0d wid z) = wid.
Proof.
  intros Hw Hz. unfold pad_0d, len.
  destruct (Z.ltb_spec z 0); [lia|].
  rewrite length_append, length_repeat_char.
  assert (Hn : Z.abs_nat z < 10 ^ wid).
  { apply Nat2Z.inj_lt. rewrite Zabs2Nat.id_abs, Z.abs_eq by lia. apply Hz. }
  pose proof (dec_digits_length (S (Z.abs_nat z)) (Z.abs_nat z) wid "" Hw Hn) as Hl.
  cbn [String.length] in Hl. clear - Hl. lia.
Qed.

Lemma pad_d_length (wid : nat) (z : Z) :
  1 <= wid -> (0 <= z < Z.of_nat (10 ^ wid))%Z -> len (pad_d wid z) = wid.
Proof.
  intros Hw Hz. unfold pad_d, itoa, len.
  destruct (Z.ltb_spec z 0); [lia|].
  rewrite length_append, length_repeat_char.
  assert (Hn : Z.abs_nat z < 10 ^ wid).
  { apply Nat2Z.inj_lt. rewrite Zabs2Nat.id_abs, Z.abs_eq by lia. apply Hz. }
  pose proof (dec_digits_length (S (Z.abs_nat z)) (Z.abs_nat z) wid "" Hw Hn) as Hl.
  cbn [String.length] in Hl. clear - Hl. lia.
Qed.

Lemma pad_0d_2_length (z : Z) : (0 <= z <= 99)%Z -> len (pad_0d 2 z) = 2.
Proof. intro H. apply pad_0d_length; [lia|]. simpl. lia. Qed.

Lemma pad_0d_3_length (z : Z) : (0 <= z <= 999)%Z -> len (pad_0d 3 z) = 3.
Proof. intro H. apply pad_0d_length; [lia|]. simpl. lia. Qed.

Lemma pad_d_4_length (z : Z) : (0 <= z <= 9999)%Z -> len (pad_d 4 z) = 4.
Proof. intro H. apply pad_d_length; [lia|]. simpl. lia. Qed.

(** X5: for a time whose fields are within their ranges (the year on four
    digits at most), [formatTime] renders 19 bytes, and 23 with the
    resolution 1000; any other resolution is ignored. *)
Theorem formatTime_length (t : Time) :
  civil t ->
  len (formatTime t []) = 19
  /\ len (formatTime t [1000%Z]) = 23
  /\ forall res, res <> 1000%Z -> formatTime t [res] = formatTime t [].
Proof.
  intros (Hy & Hmo & Hd & Hh & Hmi & Hs & Hn).
  assert (H19 : len (formatTime t []) = 19).
  { unfold formatTime, len. rewrite !length_append. simpl String.length.
    pose proof (pad_d_4_length _ Hy). pose proof (pad_0d_2_length _ Hmo).
    pose proof (pad_0d_2_length _ Hd). pose proof (pad_0d_2_length _ Hh).
    pose proof (pad_0d_2_length _ Hmi). pose proof (pad_0d_2_length _ Hs).
    unfold len in *. lia. }
  split; [exact H19|]. split.
  - unfold formatTime in *. cbn [Z.eqb Pos.eqb]. unfold len in *.
    rewrite !append_assoc in *.
    repeat rewrite length_append in *. simpl String.length in *.
    assert (Hms : (0 <= Z.quot (Nanosecond t) 1000000 <= 999)%Z).
    { split; [apply Z.quot_pos; lia|].
      apply Z.lt_succ_r. apply Z.quot_lt_upper_bound; lia. }
    pose proof (pad_0d_3_length _ Hms) as H3. unfold len in H3. lia.
  - intros res Hres. unfold formatTime.
    destruct (Z.eqb_spec res 1000); [contradiction | reflexivity].
Qed.

Lemma formatTime_length_witness :
  civil Sample.noon
  /\ len (formatTime Sample.noon []) = 19
  /\ len (formatTime Sample.noon [1000%Z]) = 23
  /\ forall res, res <> 1000%Z -> formatTime Sample.noon [res] = formatTime Sample.noon [].
Proof.
  assert (H : civil Sample.noon) by (unfold civil; cbn; lia).
  split; [exact H|]. exact (formatTime_length Sample.noon H).
Defined.

(** ** Names *)

Lemma split_on_not_nil (sep : ascii) (s : string) : split_on sep s <> [].
Proof.
  destruct s as [|c s]; simpl; [discriminate|].
  destruct (c =? sep)%char; [discriminate|].
  destruct (split_on sep s); discriminate.
Qed.

Lemma split_on_no_sep (sep : ascii) (s : string) :
  contains_char sep s = false -> split_on sep s = [s].
Proof.
  induction s as [|c s IH]; simpl; [reflexivity|].
  intro H. apply orb_false_iff in H as [H1 H2].
  rewrite H1, (IH H2). reflexivity.
Qed.

Lemma split_on_two (sep : ascii) (a b : string) :
  2 <= List.length (split_on sep (a +++ String sep b)).
Proof.
  induction a as [|c a IH]; simpl.
  - rewrite Ascii.eqb_refl. simpl.
    pose proof (split_on_not_nil sep b). destruct (split_on sep b); simpl; [contradiction|lia].
  - destruct (c =? sep)%char; simpl; [lia|].
    destruct (split_on sep (a +++ String sep b)); simpl in *; lia.
Qed.

Lemma last_cons_cons {A : Type} (x y : A) (l : list A) (d : A) :
  last (x :: y :: l) d = last (y :: l) d.
Proof. reflexivity. Qed.

Lemma split_on_last (sep : ascii) (a b : string) :
  last (split_on sep (a +++ String sep b)) "" = last (split_on sep b) "".
Proof.
  induction a as [|c a IH]; simpl append.
  - cbn [split_on]. rewrite Ascii.eqb_refl.
    pose proof (split_on_not_nil sep b). destruct (split_on sep b); [contradiction|].
    reflexivity.
  - cbn [split_on]. pose proof (split_on_two sep a b) as H2.
    destruct (c =? sep)%char.
    + destruct (split_on sep (a +++ String sep b)) as [|p ps]; [simpl in H2; lia|].
      rewrite last_cons_cons. exact IH.
    + destruct (split_on sep (a +++ String sep b)) as [|p [|q ps]];
        [simpl in H2; lia | simpl in H2; lia |].
      rewrite last_cons_cons. rewrite last_cons_cons in IH. exact IH.
Qed.

Lemma nth_length_pred {A : Type} (l : list A) (d : A) :
  nth (List.length l - 1) l d = last l d.
Proof.
  induction l as [|x l IH]; [reflexivity|].
  destruct l as [|y l]; [reflexivity|].
  rewrite last_cons_cons, <- IH. simpl. now rewrite Nat.sub_0_r.
Qed.

(** X6: an empty name renders as "root" under both [name] and
    [basename]; [name] renders any other name as it is; [basename] renders
    what follows the last "/" of the name, and a name without "/" as it
    is. *)
Theorem Format_name_fields
        (LevelName : Level -> string) (f : TemplateFormatter) (t : Time)
        (lvl : Level) (msg lineColor : string) (st : fstate)
        (name dir base : string) :
  contains_char "/" base = false ->
  let text name tok :=
    fst (Format_switch LevelName f (Rec.mk t name lvl msg) lineColor st tok) in
  text "" tfName = "root"
  /\ text "" tfBaseName = "root"
  /\ (name <> "" -> text name tfName = name)
  /\ text (dir +++ String "/" base) tfName = dir +++ String "/" base
  /\ text (dir +++ String "/" base) tfBaseName = base
  /\ (base <> "" -> text base tfBaseName = base).
Proof.
  intros Hb text. subst text. cbn.
  assert (Hne : forall d, (len (d +++ String "/" base) =? 0) = false).
  { intro d. unfold len. rewrite length_append. simpl. apply Nat.eqb_neq. lia. }
  split; [reflexivity|]. split; [reflexivity|].
  split; [intro Hname; destruct name; [contradiction | reflexivity]|].
  fold (len (dir +++ String "/" base)). rewrite Hne.
  split; [reflexivity|]. split.
  - change (match List.length (split_on "/" (dir +++ String "/" base)) with
            | 0 => 0 | S l => l end)
      with (List.length (split_on "/" (dir +++ String "/" base)) - 0 - 1 + 0).
    replace (List.length (split_on "/" (dir +++ String "/" base)) - 0 - 1 + 0)
      with (List.length (split_on "/" (dir +++ String "/" base)) - 1) by lia.
    rewrite nth_length_pred, split_on_last, (split_on_no_sep _ _ Hb). reflexivity.
  - intro Hnz. destruct base as [|c base]; [contradiction|].
    rewrite (split_on_no_sep _ _ Hb). reflexivity.
Qed.

Lemma Format_name_fields_witness :
  contains_char "/" "handlers" = false
  /\ let text name tok :=
       fst (Format_switch Sample.LevelName Sample.message_formatter
                          (Rec.mk Sample.noon name INFO "hello") ""
                          (mkFstate [] NoFmt 0 "") tok) in
     text "" tfName = "root"
     /\ text "" tfBaseName = "root"
     /\ ("abc" <> "" -> text "abc" tfName = "abc")
     /\ text ("app/log4go" +++ String "/" "handlers") tfName
        = "app/log4go" +++ String "/" "handlers"
     /\ text ("app/log4go" +++ String "/" "handlers") tfBaseName = "handlers"
     /\ ("handlers" <> "" -> text "handlers" tfBaseName = "handlers").
Proof.
  split; [reflexivity|].
  apply (Format_name_fields Sample.LevelName Sample.message_formatter Sample.noon
                            INFO "hello" "" (mkFstate [] NoFmt 0 "")
                            "abc" "app/log4go" "handlers").
  reflexivity.
Defined.

(** ** Padding and cutting *)

(** X7: on a field of ASCII text a pending width [w] gives exactly this:
    a text shorter than [w] gets spaces up to [w] bytes, after it under the
    "-" flag and before it otherwise; a longer text is cut to its first [w]
    bytes, whatever the flag. *)
Theorem Format_pads_or_cuts_ascii_field
        (LevelName : Level -> string) (f : TemplateFormatter) (r : Rec.t)
        (lineColor : string) (st : fstate) (n : Z) (minus : bool) (w : nat) :
  is_selector n ->
  alignFmt st = PadFmt minus (Z.of_nat w) ->
  width st = Z.of_nat w ->
  let s := fst (Format_switch LevelName f r lineColor st n) in
  0 < len s ->
  all_ascii s = true ->
  parts (Format_step LevelName f r lineColor st (TInt n))
  = parts st
    ++ [if len s <? w
        then if minus
             then s +++ repeat_char " " (w - len s)
             else repeat_char " " (w - len s) +++ s
        else substring 0 w s].
Proof.
  intros Hn Haf Hwd s Hs Hascii.
  destruct (Format_step_selector LevelName f r lineColor st n Hn) as [Hne _].
  fold s in Hne. specialize (Hne Hs). rewrite Haf in Hne. cbv zeta in Hne.
  destruct Hne as (Hparts & _ & _). rewrite Hparts, Hwd. f_equal. f_equal.
  unfold Sprintf_pad. rewrite Nat2Z.id, (RuneCountInString_ascii s Hascii).
  fold (len s).
  destruct (Nat.ltb_spec (len s) w) as [Hlt|Hge].
  - assert (Hl : len (if minus then s +++ repeat_char " " (w - len s)
                      else repeat_char " " (w - len s) +++ s) = w).
    { unfold len in *. destruct minus;
        rewrite length_append, length_repeat_char; lia. }
    rewrite Hl. destruct (Z.ltb_spec (Z.of_nat w) (Z.of_nat w)); [lia|reflexivity].
  - replace (w - len s) with 0 by lia. cbn [repeat_char].
    assert (Hp : (if minus then s +++ "" else "" +++ s) = s)
      by (destruct minus; [apply append_nil_r | reflexivity]).
    rewrite Hp.
    destruct (Z.ltb_spec (Z.of_nat w) (Z.of_nat (len s))) as [Hcut|Hfit].
    + unfold slice. now rewrite Nat.sub_0_r.
    + assert (w = len s) by lia. subst w. unfold len. now rewrite substring_whole.
Qed.

Lemma Format_pads_or_cuts_ascii_field_witness :
  let st := mkFstate [] (PadFmt true (Z.of_nat 2)) (Z.of_nat 2) "" in
  let s := fst (Format_switch Sample.LevelName Sample.message_formatter
                              Sample.abc "" st tfName) in
  is_selector tfName
  /\ alignFmt st = PadFmt true (Z.of_nat 2)
  /\ width st = Z.of_nat 2
  /\ 0 < len s
  /\ all_ascii s = true
  /\ parts (Format_step Sample.LevelName Sample.message_formatter
                        Sample.abc "" st (TInt tfName))
     = parts st
       ++ [if len s <? 2
           then if true
                then s +++ repeat_char " " (2 - len s)
                else repeat_char " " (2 - len s) +++ s
           else substring 0 2 s].
Proof.
  assert (Hsel : is_selector tfName) by (unfold is_selector, tfName; lia).
  cbv zeta. split; [exact Hsel|]. split; [reflexivity|]. split; [reflexivity|].
  split; [cbn; lia|]. split; [reflexivity|].
  apply (Format_pads_or_cuts_ascii_field
           Sample.LevelName Sample.message_formatter Sample.abc ""
           (mkFstate [] (PadFmt true (Z.of_nat 2)) (Z.of_nat 2) "") tfName true 2);
    [exact Hsel | reflexivity | reflexivity | cbn; lia | reflexivity].
Defined.

(** ** Colours *)

Lemma join_cons (x : string) (l : list string) : join (x :: l) = x +++ join l.
Proof.
  unfold join. destruct l as [|y l]; simpl.
  - now rewrite append_nil_r.
  - reflexivity.
Qed.

Lemma join_app (a b : list string) : join (a ++ b) = join a +++ join b.
Proof.
  induction a as [|x a IH]; [reflexivity|].
  rewrite <- app_comm_cons, !join_cons, IH. now rewrite append_assoc.
Qed.

Lemma Format_switch_prefix (LevelName : Level -> string) (f : TemplateFormatter)
      (r : Rec.t) (lineColor : string) (p : list string) (st : fstate) (n : Z) :
  Format_switch LevelName f r lineColor (with_prefix p st) n
  = (fst (Format_switch LevelName f r lineColor st n),
     with_prefix p (snd (Format_switch LevelName f r lineColor st n))).
Proof.
  unfold Format_switch, with_prefix. cbn [parts alignFmt width processedMessage].
  repeat match goal with
         | |- context [if ?b then _ else _] => destruct b
         end; reflexivity.
Qed.

Lemma Format_step_prefix (LevelName : Level -> string) (f : TemplateFormatter)
      (r : Rec.t) (lineColor : string) (p : list string) (st : fstate) (tok : token) :
  Format_step LevelName f r lineColor (with_prefix p st) tok
  = with_prefix p (Format_step LevelName f r lineColor st tok).
Proof.
  destruct tok as [lit|n]; unfold Format_step.
  - unfold with_prefix; cbn. now rewrite app_assoc.
  - rewrite Format_switch_prefix.
    destruct (Format_switch LevelName f r lineColor st n) as [s st1]. cbn [fst snd].
    destruct (0 <? len s); [|reflexivity].
    unfold with_prefix; cbn.
    destruct (alignFmt st1); cbn; now rewrite app_assoc.
Qed.

Lemma fold_Format_step_prefix (LevelName : Level -> string) (f : TemplateFormatter)
      (r : Rec.t) (lineColor : string) (p : list string) (toks : list token) :
  forall st,
    fold_left (Format_step LevelName f r lineColor) toks (with_prefix p st)
    = with_prefix p (fold_left (Format_step LevelName f r lineColor) toks st).
Proof.
  induction toks as [|tok toks IH]; intro st; [reflexivity|].
  cbn [fold_left]. now rewrite Format_step_prefix, IH.
Qed.

(** X8: a record whose level has a non-empty colour in the level map is
    rendered as the colour, the line, and the reset code, the message being
    processed for that colour; a level that is missing from the map, or
    mapped to the empty string, is rendered as the line alone. *)
Theorem Format_wraps_line_in_colour
        (LevelName : Level -> string) (f : TemplateFormatter) (r : Rec.t) :
  Rec.Level r <> NOTSET ->
  (forall c, level_lookup (levelColoring f) (Rec.Level r) = Some c -> c <> "" ->
             Format LevelName f r
             = (c +++ plain_line LevelName f r c +++ colorReset, None))
  /\ (level_index (levelColoring f) (Rec.Level r) = "" ->
      Format LevelName f r = (plain_line LevelName f r "", None)).
Proof.
  intro Hl.
  assert (Hnot : Level_eqb (Rec.Level r) NOTSET = false)
    by (destruct (Rec.Level r); try reflexivity; contradiction).
  unfold Format, plain_line. rewrite Hnot. split.
  - intros c Hc Hne. unfold level_index. rewrite Hc.
    destruct (String.eqb_spec c ""); [contradiction|]. cbn [negb].
    change (mkFstate [c] NoFmt 0 "") with (with_prefix [c] (mkFstate [] NoFmt 0 "")).
    rewrite fold_Format_step_prefix. unfold with_prefix at 1. cbn [parts].
    rewrite <- app_assoc, <- app_comm_cons, join_cons. cbn [app].
    rewrite join_app, join_cons. change (join []) with "".
    now rewrite append_nil_r.
  - intro He. rewrite He. reflexivity.
Qed.

Lemma Format_wraps_line_in_colour_witness :
  let f := mkTemplateFormatter "{name}" [TInt tfName] [(INFO, "<i>"); (DEBUG, "")]
                               defaultProcessMessage in
  Rec.Level Sample.abc <> NOTSET
  /\ (forall c, level_lookup (levelColoring f) (Rec.Level Sample.abc) = Some c ->
                c <> "" ->
                Format Sample.LevelName f Sample.abc
                = (c +++ plain_line Sample.LevelName f Sample.abc c +++ colorReset, None))
  /\ (level_index (levelColoring f) (Rec.Level Sample.abc) = "" ->
      Format Sample.LevelName f Sample.abc
      = (plain_line Sample.LevelName f Sample.abc "", None)).
Proof.
  cbv zeta. split; [discriminate|].
  apply (Format_wraps_line_in_colour Sample.LevelName
           (mkTemplateFormatter "{name}" [TInt tfName] [(INFO, "<i>"); (DEBUG, "")]
                                defaultProcessMessage) Sample.abc).
  discriminate.
Defined.

(** X9: the three setters of the level colours change the colours and
    nothing else: the tokens, the stored template string and the message
    processor stay.  After [SetLevelColoring(m)] a record is rendered in the
    colour [m] gives its level, when there is one and it is not empty, and
    without any escape code otherwise; after [EnableLevelColoring(true)] the
    colour is the default one of the level; after [EnableLevelColoring(false)]
    or [SetLevelColoring(nil)] there is none. *)
Theorem EnableLevelColoring_then_Format
        (RedBg Bold Red Yellow Normal Faint : string)
        (LevelName : Level -> string) (f : TemplateFormatter) (m : level_map)
        (time : Time) (name : string) (lvl : Level) (message : string) :
  lvl <> NOTSET ->
  let r := Rec.mk time name lvl message in
  let on := EnableLevelColoring RedBg Bold Red Yellow Normal Faint f true in
  let off := EnableLevelColoring RedBg Bold Red Yellow Normal Faint f false in
  let set := SetLevelColoring f m in
  let code := level_index (defaultLevelColoring RedBg Bold Red Yellow Normal Faint)
                          lvl in
  let coloured c :=
    (if (c =? "")%string then plain_line LevelName f r ""
     else c +++ plain_line LevelName f r c +++ colorReset, @None error) in
  Format LevelName on r = coloured code
  /\ Format LevelName off r = (plain_line LevelName f r "", None)
  /\ Format LevelName (SetLevelColoring f []) r = (plain_line LevelName f r "", None)
  /\ Format LevelName set r = coloured (level_index m lvl)
  /\ (formatTokens on = formatTokens f /\ GetFormat on = GetFormat f
      /\ processMessage on = processMessage f)
  /\ (formatTokens off = formatTokens f /\ GetFormat off = GetFormat f
      /\ processMessage off = processMessage f)
  /\ (formatTokens set = formatTokens f /\ GetFormat set = GetFormat f
      /\ processMessage set = processMessage f)
  /\ levelColoring set = m
  /\ levelColoring off = []
  /\ levelColoring on = defaultLevelColoring RedBg Bold Red Yellow Normal Faint.
Proof.
  intros Hl r on off set code coloured.
  assert (Hr : Rec.Level r <> NOTSET) by exact Hl.
  assert (Hany : forall m1,
             Format LevelName (SetLevelColoring f m1) r
             = coloured (level_index m1 lvl)).
  { intro m1.
    destruct (Format_wraps_line_in_colour LevelName (SetLevelColoring f m1) r Hr)
      as [Hwrap Hplain].
    subst coloured. cbv beta.
    destruct (String.eqb_spec (level_index m1 lvl) "") as [He|Hne].
    - rewrite Hplain; [reflexivity | exact He].
    - assert (Hc : level_lookup (levelColoring (SetLevelColoring f m1)) (Rec.Level r)
                   = Some (level_index m1 lvl)).
      { cbn. unfold level_index in *. destruct (level_lookup m1 lvl);
          [reflexivity | contradiction]. }
      rewrite (Hwrap _ Hc Hne). reflexivity. }
  split; [exact (Hany (defaultLevelColoring RedBg Bold Red Yellow Normal Faint))|].
  split; [exact (Hany [])|]. split; [exact (Hany [])|].
  split; [exact (Hany m)|].
  now repeat split.
Qed.

Lemma EnableLevelColoring_then_Format_witness :
  let f := Sample.message_formatter in
  let m := [(ERROR, "<e>"); (INFO, "")] in
  let r := Rec.mk Sample.noon "abc" ERROR "hello" in
  let on := EnableLevelColoring "<rb>" "<b>" "<r>" "<y>" "" "<f>" f true in
  ERROR <> NOTSET
  /\ Format Sample.LevelName on r = ("<r>hello" +++ colorReset, None)
  /\ Format Sample.LevelName (SetLevelColoring f m) r
     = ("<e>hello" +++ colorReset, None)
  /\ Format Sample.LevelName (SetLevelColoring f []) r = ("hello", None)
  /\ formatTokens (SetLevelColoring f m) = [TInt tfMessage]
  /\ GetFormat (SetLevelColoring f m) = "{message}".
Proof.
  cbv zeta.
  assert (Hl : ERROR <> NOTSET) by discriminate.
  destruct (EnableLevelColoring_then_Format
              "<rb>" "<b>" "<r>" "<y>" "" "<f>" Sample.LevelName
              Sample.message_formatter [(ERROR, "<e>"); (INFO, "")]
              Sample.noon "abc" ERROR "hello" Hl)
    as (Hon & _ & Hnil & Hset & _ & _ & (Htok & Hget & _) & _).
  split; [exact Hl|]. split; [exact Hon|]. split; [exact Hset|].
  split; [exact Hnil|]. split; [exact Htok | exact Hget].
Defined.

(** ** The consumer's failures *)

(** X12: a handler that was given no formatter panics in its consumer at
    the first record it receives, whatever the record and the writer:
    nothing is written, and nothing runs after that. *)
Theorem consumer_panics_without_formatter (wr : writer) (w : World) (rec : Rec.t) :
  option_map (fun s => (crashed s, files (world s), stderr (world s)))
             (Pipeline.run (unformatted wr w)
                           [Call_Handle rec; Handle_Send 0; Select_Recv; Commit])
  = Some (true, files w, stderr w)
  /\ forall a, option_map (fun s => Pipeline.step s a)
                          (Pipeline.run (unformatted wr w)
                                        [Call_Handle rec; Handle_Send 0;
                                         Select_Recv; Commit])
               = Some None.
Proof.
  split; [reflexivity|]. intro a. reflexivity.
Qed.

Lemma File_Write_error (w w1 : World) (fp : option nat) (msg : string) (e : error) :
  OS.File_Write w fp msg = (w1, Some e) -> w1 = w.
Proof.
  unfold OS.File_Write. destruct fp as [fd|].
  - destruct (OS.lookup_fd (fds w) fd); intro H; inversion H; reflexivity.
  - intro H. inversion H. reflexivity.
Qed.

(** X13: a record that cannot be formatted, or whose line cannot be
    written to the file, is dropped: the consumer returns with the handler as
    it was and no file, descriptor or path touched; under [ErrorNotSet]
    nothing at all changes, otherwise exactly one line is printed on the
    error stream. *)
Theorem committer_drops_what_it_cannot_write
        (h : StreamHandler) (formatter : Formatter) (rec : Rec.t) (w : World)
        (fp : option nat) :
  StreamFormatter h = Some formatter ->
  Writer h = WFile fp ->
  snd (formatter rec) <> None
  \/ snd (OS.File_Write w fp (fst (formatter rec) +++ newline)) <> None ->
  exists w1,
    Stream.committer_recv h rec w = Ret (h, w1)
    /\ files w1 = files w /\ fds w1 = fds w /\ dir w1 = dir w
    /\ (snd (formatter rec) = Some ErrorNotSet -> w1 = w)
    /\ (snd (formatter rec) <> Some ErrorNotSet ->
        exists line, stderr w1 = stderr w ++ [line]).
Proof.
  intros Hf Hw Hfail.
  unfold Stream.committer_recv, Stream.Formatter, Stream.onPreWrite.
  rewrite Hf. destruct (formatter rec) as [msg [e|]] eqn:E; cbn [fst snd] in *.
  - destruct e; eexists; (split; [reflexivity|]); split_conj;
      try reflexivity; try (intros; congruence); intros _; eexists; reflexivity.
  - destruct Hfail as [Hfail|Hfail]; [contradiction|].
    rewrite Hw. cbn [Stream.Writer_Write bind].
    destruct (OS.File_Write w fp (msg +++ newline)) as [w1 [e|]] eqn:Ew;
      cbn [snd] in Hfail; [|contradiction].
    apply File_Write_error in Ew. subst w1.
    eexists. split; [reflexivity|]. split_conj; try reflexivity.
    + discriminate.
    + intros _. eexists. reflexivity.
Qed.

Lemma committer_drops_what_it_cannot_write_witness :
  let h := mkStreamHandler (WFile None)
                           (Some (Format Sample.LevelName Sample.message_formatter))
                           NOTSET [] false false false in
  StreamFormatter h = Some (Format Sample.LevelName Sample.message_formatter)
  /\ Writer h = WFile None
  /\ (snd (Format Sample.LevelName Sample.message_formatter Sample.abc) <> None
      \/ snd (OS.File_Write Sample.disk None
                            (fst (Format Sample.LevelName Sample.message_formatter
                                         Sample.abc) +++ newline)) <> None)
  /\ exists w1,
      Stream.committer_recv h Sample.abc Sample.disk = Ret (h, w1)
      /\ files w1 = files Sample.disk /\ fds w1 = fds Sample.disk
      /\ dir w1 = dir Sample.disk
      /\ (snd (Format Sample.LevelName Sample.message_formatter Sample.abc)
          = Some ErrorNotSet -> w1 = Sample.disk)
      /\ (snd (Format Sample.LevelName Sample.message_formatter Sample.abc)
          <> Some ErrorNotSet ->
          exists line, stderr w1 = stderr Sample.disk ++ [line]).
Proof.
  cbv zeta. split; [reflexivity|]. split; [reflexivity|].
  assert (Hfail : snd (Format Sample.LevelName Sample.message_formatter Sample.abc)
                  <> None
                  \/ snd (OS.File_Write Sample.disk None
                            (fst (Format Sample.LevelName Sample.message_formatter
                                         Sample.abc) +++ newline)) <> None)
    by (right; discriminate).
  split; [exact Hfail|].
  exact (committer_drops_what_it_cannot_write
           (mkStreamHandler (WFile None)
                            (Some (Format Sample.LevelName Sample.message_formatter))
                            NOTSET [] false false false)
           (Format Sample.LevelName Sample.message_formatter)
           Sample.abc Sample.disk None eq_refl eq_refl Hfail).
Defined.

(** ** The handler between its calls *)

Lemma committer_recv_returns (h : StreamHandler) (rec : Rec.t) (w : World) :
  StreamFormatter h <> None -> Writer h <> WNil ->
  exists w1, Stream.committer_recv h rec w = Ret (h, w1).
Proof.
  intros Hf Hw. unfold Stream.committer_recv, Stream.Formatter, Stream.onPreWrite.
  destruct (StreamFormatter h) as [formatter|]; [|contradiction].
  destruct (formatter rec) as [msg [e|]].
  - destruct e; eexists; reflexivity.
  - destruct (Writer h) as [|fp]; [contradiction|].
    cbn [Stream.Writer_Write bind].
    destruct (OS.File_Write w fp (msg +++ newline)) as [w1 [e|]];
      eexists; reflexivity.
Qed.

Lemma run_app (acts more : list action) :
  forall s,
    Pipeline.run s (acts ++ more)
    = match Pipeline.run s acts with
      | Some s1 => Pipeline.run s1 more
      | None => None
      end.
Proof.
  induction acts as [|a acts IH]; intro s; cbn [app Pipeline.run]; [reflexivity|].
  destruct (Pipeline.step s a); [apply IH | reflexivity].
Qed.

Lemma step_orderly (s s1 : Sys) (a : action) :
  orderly s -> Pipeline.step s a = Some s1 -> orderly s1.
Proof.
  intros Hs Hstep.
  pose proof Hs as (Hf & Hw & Hlen & Hflag & Hchan & Hstop).
  unfold Pipeline.step in Hstep. destruct (crashed s); [discriminate|].
  destruct a as [rec|i| | | | |].
  - unfold Pipeline.Handle_enter in Hstep.
    destruct (negb (StreamShutdown (hdl s))); now injection Hstep as <-.
  - unfold Pipeline.Handle_send in Hstep.
    destruct (nth_error (sending s) i) as [rec|]; [|discriminate].
    destruct (CommitChannel_closed (hdl s)) eqn:Eclosed.
    + now injection Hstep as <-.
    + destruct (Nat.ltb_spec (List.length (CommitChannel (hdl s))) CommitChannel_cap);
        [|discriminate].
      injection Hstep as <-. unfold orderly; cbn.
      rewrite Eclosed, length_app. cbn. rewrite ?Eclosed in Hchan.
      split_conj; try tauto; lia.
  - unfold Pipeline.Shutdown_enter in Hstep.
    destruct (StreamShutdown (hdl s)) eqn:Eflag; cbn [negb] in Hstep.
    + now injection Hstep as <-.
    + destruct (caller s) eqn:Ecaller; try discriminate.
      injection Hstep as <-. unfold orderly; cbn.
      split_conj; try tauto; try (split; discriminate);
        (split; [discriminate|]); intro H;
        first [ apply Hchan in H | apply Hstop in H ]; discriminate.
  - unfold Pipeline.committer_stop in Hstep.
    destruct (holding s); [discriminate|].
    destruct (caller s) eqn:Ecaller;
      try (destruct (CommitterStop_closed (hdl s)); [|discriminate];
           now injection Hstep as <-).
    injection Hstep as <-. unfold orderly; cbn.
    destruct (StreamShutdown (hdl s)) eqn:Eflag;
      [|destruct Hflag as [_ Hflag]; specialize (Hflag eq_refl); discriminate].
    split_conj; try tauto; try (split; discriminate);
      (split; [discriminate|]); intro H;
      first [ apply Hchan in H | apply Hstop in H ]; discriminate.
  - unfold Pipeline.Shutdown_close in Hstep.
    destruct (caller s) eqn:Ecaller; try discriminate.
    injection Hstep as <-. unfold orderly; cbn.
    destruct (StreamShutdown (hdl s)) eqn:Eflag;
      [|destruct Hflag as [_ Hflag]; specialize (Hflag eq_refl); discriminate].
    split_conj; try tauto; split; try reflexivity; discriminate.
  - unfold Pipeline.committer_receive, Pipeline.committer_take in Hstep.
    destruct (holding s); [discriminate|].
    destruct (CommitChannel (hdl s)) as [|rec q] eqn:Eq.
    + destruct (CommitChannel_closed (hdl s)) eqn:Eclosed; [|discriminate].
      injection Hstep as <-. unfold orderly; cbn.
      rewrite Eq, Eclosed. rewrite ?Eclosed in Hchan. cbn.
      split_conj; try tauto; lia.
    + injection Hstep as <-. unfold orderly; cbn.
      cbn in Hlen. split_conj; try tauto; lia.
  - unfold Pipeline.committer_commit in Hstep.
    destruct (holding s) as [rec|]; [|discriminate].
    destruct (committer_recv_returns (hdl s) rec (world s) Hf Hw) as [w1 E].
    rewrite E in Hstep. now injection Hstep as <-.
Qed.

Lemma run_orderly (acts : list action) :
  forall s s1, orderly s -> Pipeline.run s acts = Some s1 -> orderly s1.
Proof.
  induction acts as [|a acts IH]; intros s s1 Hs Hrun; simpl in Hrun.
  - now injection Hrun as <-.
  - destruct (Pipeline.step s a) as [s2|] eqn:E; [|discriminate].
    apply (IH s2 s1); [|exact Hrun]. eapply step_orderly; eassumption.
Qed.

Lemma boot_orderly (w : World) (fd : nat) (formatter : Formatter) :
  orderly (Pipeline.boot w fd formatter).
Proof.
  unfold orderly, Pipeline.boot, CommitChannel_cap; cbn.
  split_conj; try reflexivity; try discriminate; try lia;
    split; try reflexivity; discriminate.
Qed.








(** X11: once [Shutdown] has been entered, a call of [Handle] or of
    [Shutdown] returns and leaves the handler, its channel and the sink as
    they are. *)
Theorem calls_after_Shutdown_change_nothing
        (w : World) (fd : nat) (formatter : Formatter) (acts : list action)
        (s : Sys) (rec : Rec.t) :
  Pipeline.run (Pipeline.boot w fd formatter) acts = Some s ->
  caller s <> SdNotCalled ->
  Pipeline.Handle_enter s rec = Some s
  /\ Pipeline.Shutdown_enter s = Some s
  /\ (crashed s = false ->
      Pipeline.step s (Call_Handle rec) = Some s
      /\ Pipeline.step s Call_Shutdown = Some s).
Proof.
  intros Hrun Hcalled.
  pose proof (run_orderly acts _ s (boot_orderly w fd formatter) Hrun)
    as (_ & _ & _ & Hflag & _ & _).
  assert (Eflag : StreamShutdown (hdl s) = true).
  { destruct (StreamShutdown (hdl s)); [reflexivity|].
    exfalso. now apply Hcalled, Hflag. }
  unfold Pipeline.step, Pipeline.Handle_enter, Pipeline.Shutdown_enter.
  rewrite Eflag. split_conj; try reflexivity. intros ->. now split.
Qed.

Lemma calls_after_Shutdown_change_nothing_witness :
  Pipeline.run (Pipeline.boot Sample.disk_open 3
                              (Format Sample.LevelName Sample.message_formatter))
               shutdown_first
  = Some after_shutdown
  /\ caller after_shutdown <> SdNotCalled
  /\ crashed after_shutdown = false
  /\ Pipeline.Handle_enter after_shutdown Sample.abc = Some after_shutdown
  /\ Pipeline.Shutdown_enter after_shutdown = Some after_shutdown
  /\ (crashed after_shutdown = false ->
      Pipeline.step after_shutdown (Call_Handle Sample.abc) = Some after_shutdown
      /\ Pipeline.step after_shutdown Call_Shutdown = Some after_shutdown).
Proof.
  split; [reflexivity|]. split; [discriminate|]. split; [reflexivity|].
  apply (calls_after_Shutdown_change_nothing
           Sample.disk_open 3 (Format Sample.LevelName Sample.message_formatter)
           shutdown_first after_shutdown Sample.abc);
    [reflexivity | discriminate].
Defined.

Lemma drain_in_service (formatter : Formatter) (fd : nat) (id : FileId)
      (before : string) :
  forall n s,
    in_service formatter fd id before s ->
    crashed s = false ->
    holding s = None ->
    List.length (CommitChannel (hdl s)) = n ->
    exists s1,
      Pipeline.run s (List.concat (repeat [Select_Recv; Commit] n)) = Some s1
      /\ in_service formatter fd id before s1
      /\ CommitChannel (hdl s1) = []
      /\ holding s1 = None
      /\ enqueued s1 = enqueued s
      /\ caller s1 = caller s.
Proof.
  intro n. induction n as [|n IH]; intros s Hs Hc Hhold Hn.
  - exists s. cbn. split_conj; try reflexivity; try assumption.
    now apply length_zero_iff_nil.
  - destruct (CommitChannel (hdl s)) as [|rec q] eqn:Eq; [discriminate|].
    pose proof Hs as (Hf & Hw & Hfd & _).
    destruct (committer_recv_appends formatter fd id
                (Pipeline.set_queue (hdl s) q) rec (world s) Hf Hw Hfd)
      as (w1 & E & _ & _).
    set (s2 := mkSys (Pipeline.set_queue (hdl s) q) (world s) (caller s)
                     (sending s) (Some rec) false (enqueued s)).
    set (s3 := mkSys (Pipeline.set_queue (hdl s) q) w1 (caller s)
                     (sending s) None false (enqueued s)).
    assert (Hstep2 : Pipeline.step s Select_Recv = Some s2).
    { unfold Pipeline.step, Pipeline.committer_receive, Pipeline.committer_take.
      now rewrite Hc, Hhold, Eq. }
    assert (Hstep3 : Pipeline.step s2 Commit = Some s3).
    { unfold Pipeline.step, Pipeline.committer_commit. cbn.
      now rewrite E. }
    pose proof (step_in_service _ _ _ _ _ _ _ Hs Hstep2) as Hs2.
    pose proof (step_in_service _ _ _ _ _ _ _ Hs2 Hstep3) as Hs3.
    destruct (IH s3 Hs3) as (s1 & Hrun & Hs1 & Hq1 & Hh1 & He1 & Hc1);
      [reflexivity | reflexivity | cbn; cbn in Hn; lia |].
    exists s1. cbn [repeat List.concat app Pipeline.run].
    rewrite Hstep2, Hstep3.
    split_conj; assumption.
Qed.

(** X14: at any moment the consumer can write all that was sent: ending
    the case body it is in, and then taking the receive case once per
    buffered record, empties the channel and leaves the sink with the lines
    of all the records sent, in the order sent. *)
Theorem consumer_can_write_all_that_was_sent
        (LevelName : Level -> string) (tf : TemplateFormatter)
        (w : World) (fd : nat) (id : FileId) (acts : list action) (s : Sys) :
  OS.lookup_fd (fds w) fd = Some id ->
  Pipeline.run (Pipeline.boot w fd (Format LevelName tf)) acts = Some s ->
  crashed s = false ->
  exists s1,
    Pipeline.run s (Pipeline.drain s) = Some s1
    /\ CommitChannel (hdl s1) = []
    /\ holding s1 = None
    /\ enqueued s1 = enqueued s
    /\ caller s1 = caller s
    /\ Pipeline.sink s1
       = OS.content (files w) id
         +++ Pipeline.lines (Format LevelName tf) (enqueued s).
Proof.
  intros Hfd Hrun Hc.
  assert (Hzero : Pipeline.line (Format LevelName tf) zeroRecord = "")
    by (unfold Pipeline.line; now rewrite Format_of_NOTSET).
  pose proof (run_in_service _ fd id _ acts _ s
                             (boot_in_service _ w fd id Hfd) Hrun) as Hs.
  assert (Hdrain : exists s1,
             Pipeline.run s (Pipeline.drain s) = Some s1
             /\ in_service (Format LevelName tf) fd id (OS.content (files w) id) s1
             /\ CommitChannel (hdl s1) = []
             /\ holding s1 = None
             /\ enqueued s1 = enqueued s
             /\ caller s1 = caller s).
  { unfold Pipeline.drain. rewrite run_app.
    destruct (holding s) as [rec|] eqn:Hhold.
    - pose proof Hs as (Hf & Hw & Hfd' & _).
      destruct (committer_recv_appends _ fd id (hdl s) rec (world s) Hf Hw Hfd')
        as (w1 & E & _ & _).
      set (s2 := mkSys (hdl s) w1 (caller s) (sending s) None false
                       (enqueued s)).
      assert (Hstep : Pipeline.step s Commit = Some s2).
      { unfold Pipeline.step, Pipeline.committer_commit.
        now rewrite Hc, Hhold, E. }
      cbn [Pipeline.run]. rewrite Hstep.
      apply (drain_in_service _ fd id _ _ s2
                              (step_in_service _ _ _ _ _ _ _ Hs Hstep));
        [reflexivity | reflexivity | reflexivity].
    - cbn [Pipeline.run]. now apply (drain_in_service _ fd id _ _ s Hs). }
  destruct Hdrain as (s1 & Hd & Hs1 & Hq & Hh & He & Hcl).
  exists s1. split_conj; try assumption.
  rewrite (in_service_sink _ _ _ _ _ Hs1).
  destruct Hs1 as (_ & _ & _ & k & j & written & Hk & Hrecv & Hchan & _ & Hcontent).
  unfold Pipeline.in_hand in Hrecv. rewrite Hh, app_nil_r in Hrecv.
  rewrite Hq in Hchan.
  assert (Hall : firstn k (enqueued s1) = enqueued s1).
  { rewrite <- (firstn_skipn k (enqueued s1)) at 2.
    now rewrite <- Hchan, app_nil_r. }
  rewrite Hcontent, Hrecv, Hall, He, lines_app, lines_zero by exact Hzero.
  now rewrite append_nil_r.
Qed.

Lemma consumer_can_write_all_that_was_sent_witness :
  OS.lookup_fd (fds Sample.disk_open) 3 = Some (1, 10)%Z
  /\ Pipeline.run (Pipeline.boot Sample.disk_open 3
                                 (Format Sample.LevelName Sample.message_formatter))
                  shutdown_midway
     = Some after_shutdown_midway
  /\ crashed after_shutdown_midway = false
  /\ exists s1,
      Pipeline.run after_shutdown_midway (Pipeline.drain after_shutdown_midway)
      = Some s1
      /\ CommitChannel (hdl s1) = []
      /\ holding s1 = None
      /\ enqueued s1 = enqueued after_shutdown_midway
      /\ caller s1 = caller after_shutdown_midway
      /\ Pipeline.sink s1
         = OS.content (files Sample.disk_open) (1, 10)%Z
           +++ Pipeline.lines (Format Sample.LevelName Sample.message_formatter)
                              (enqueued after_shutdown_midway).
Proof.
  split; [reflexivity|]. split; [reflexivity|]. split; [reflexivity|].
  apply (consumer_can_write_all_that_was_sent
           Sample.LevelName Sample.message_formatter Sample.disk_open 3 (1, 10)%Z
           shutdown_midway after_shutdown_midway); reflexivity.
Defined.

(** ** Opening the log file *)

Lemma lookup_fd_head (fd : nat) (id : FileId) (t : list (nat * FileId)) :
  OS.lookup_fd ((fd, id) :: t) fd = Some id.
Proof. simpl. now rewrite Nat.eqb_refl. Qed.

(** X15: [NewFileHandler] on a path that cannot be opened returns the
    error and changes nothing.  Otherwise it returns a handler writing to a
    new descriptor open on the file of the path (created when missing); the
    file then holds what it held before when it is appended to, nothing when
    it is truncated or new, followed by "START LOGS\n" when the header is
    asked for. *)
Theorem NewFileHandler_opens_the_path
        (name : string) (append header : bool) (w : World) :
  (existsb (String.eqb name) (denied w) = true ->
   NewFileHandler name append header w = (w, inl (PathError "open" name)))
  /\ (existsb (String.eqb name) (denied w) = false ->
      exists w1,
        NewFileHandler name append header w
        = (w1, inr (Stream.NewStreamHandler (WFile (Some (next_fd w)))))
        /\ OS.lookup_path (dir w1) name = Some (opened_id w name)
        /\ fds w1 = (next_fd w, opened_id w name) :: fds w
        /\ OS.content (files w1) (opened_id w name)
           = opened_content w name append header
        /\ stderr w1 = stderr w).
Proof.
  unfold NewFileHandler, OS.OpenFile, opened_id, opened_content. split.
  - intro Hd. destruct append; now rewrite Hd.
  - intro Hd.
    destruct append, header; rewrite Hd;
      destruct (OS.lookup_path (dir w) name) as [id|] eqn:El;
      cbn -[newline OS.content OS.set_content OS.lookup_path OS.lookup_fd];
      rewrite ?lookup_fd_head;
      eexists; (split; [reflexivity|]);
      cbn -[newline OS.content OS.set_content];
      rewrite ?El, ?String.eqb_refl, ?content_set_content, ?append_nil_r;
      split_conj; reflexivity.
Qed.

Lemma OpenFile_allowed (w : World) (name : string) (flags : Z) :
  existsb (String.eqb name) (denied w) = false ->
  (0 <? Z.land flags OS.O_CREATE)%Z = true ->
  exists w1,
    OS.OpenFile w name flags = (w1, inr (next_fd w))
    /\ OS.lookup_path (dir w1) name = Some (opened_id w name)
    /\ fds w1 = (next_fd w, opened_id w name) :: fds w
    /\ OS.content (files w1) (opened_id w name)
       = (match OS.lookup_path (dir w) name with
          | Some id => if (0 <? Z.land flags OS.O_TRUNC)%Z then ""
                       else OS.content (files w) id
          | None => ""
          end)
    /\ stderr w1 = stderr w /\ denied w1 = denied w.
Proof.
  intros Hd Hc. unfold OS.OpenFile, opened_id. rewrite Hd.
  destruct (OS.lookup_path (dir w) name) as [id|] eqn:El.
  - eexists. split; [reflexivity|]. cbn -[OS.content OS.set_content].
    rewrite El. split_conj; try reflexivity.
    destruct (0 <? Z.land flags OS.O_TRUNC)%Z;
      [apply content_set_content | reflexivity].
  - rewrite Hc. eexists. split; [reflexivity|]. cbn -[OS.content OS.set_content].
    rewrite String.eqb_refl, content_set_content. split_conj; reflexivity.
Qed.

(** X16: [NewWatchedFileHandler] never panics.  On a path that cannot be
    opened it returns the error.  Otherwise the handler writes to a new
    descriptor open on the file of the path, holds the device and inode of
    that file, leaves its [fp] nil, and [fileHasMoved] answers false right
    away; the file holds what [NewFileHandler] would leave in it. *)
Theorem NewWatchedFileHandler_captures_the_identity
        (name : string) (append header : bool) (w : World) :
  (existsb (String.eqb name) (denied w) = true ->
   Watched.NewWatchedFileHandler name append header w
   = Ret (None, w, Some (PathError "open" name)))
  /\ (existsb (String.eqb name) (denied w) = false ->
      exists h w1,
        Watched.NewWatchedFileHandler name append header w = Ret (Some h, w1, None)
        /\ Watched.SH h = Some (Stream.NewStreamHandler (WFile (Some (next_fd w))))
        /\ Watched.fp h = None
        /\ Watched.filename h = name /\ Watched.append h = append
        /\ (Watched.dev h, Watched.inode h)
           = (Watched.uint64 (fst (opened_id w name)), snd (opened_id w name))
        /\ OS.lookup_path (dir w1) name = Some (opened_id w name)
        /\ fds w1 = (next_fd w, opened_id w name) :: fds w
        /\ OS.content (files w1) (opened_id w name)
           = opened_content w name append header
        /\ Watched.fileHasMoved h w1 = Ret false).
Proof.
  split.
  - intro Hd. unfold Watched.NewWatchedFileHandler, Watched.open, OS.OpenFile.
    cbn [Watched.filename Watched.append]. destruct append; now rewrite Hd.
  - intro Hd.
    set (flags := if append
                  then Z.lor (Z.lor OS.O_WRONLY OS.O_CREATE) OS.O_APPEND
                  else Z.lor (Z.lor OS.O_WRONLY OS.O_CREATE) OS.O_TRUNC).
    assert (Hc : (0 <? Z.land flags OS.O_CREATE)%Z = true)
      by (subst flags; destruct append; reflexivity).
    assert (Ht : (0 <? Z.land flags OS.O_TRUNC)%Z = negb append)
      by (subst flags; destruct append; reflexivity).
    destruct (OpenFile_allowed w name flags Hd Hc)
      as (w1 & Eopen & Hpath & Hfds & Hcontent & Herr & _).
    unfold Watched.NewWatchedFileHandler, Watched.open.
    cbn [Watched.filename Watched.append Watched.fp]. fold flags. rewrite Eopen.
    cbn [Watched.set_Writer Watched.SH bind Watched.fp Watched.filename
         Watched.append Watched.inode Watched.dev].
    unfold Watched.statFile, OS.Stat. cbn [Watched.filename]. rewrite Hpath.
    destruct (opened_id w name) as [d i] eqn:Eid.
    cbn [OS.Sys bind fst snd Watched.SH Watched.fp Watched.filename
         Watched.append Watched.inode Watched.dev].
    assert (Hmoved : forall w2 sh,
               OS.lookup_path (dir w2) name = Some (d, i) ->
               Watched.fileHasMoved
                 (Watched.mkWatchedFileHandler sh None name append i (Watched.uint64 d))
                 w2 = Ret false).
    { intros w2 sh H2. unfold Watched.fileHasMoved, Watched.statFile, OS.Stat.
      cbn [Watched.filename Watched.dev Watched.inode]. rewrite H2.
      cbn [OS.Sys bind]. now rewrite !Z.eqb_refl. }
    unfold opened_content.
    destruct header.
    + cbn [Stream.Writer_Write Writer Stream.set_Writer Stream.NewStreamHandler
           bind OS.File_Write].
      rewrite Hfds, lookup_fd_head. cbn [bind].
      do 2 eexists. split; [reflexivity|].
      cbn -[newline OS.content OS.set_content OS.lookup_path Watched.fileHasMoved].
      rewrite content_set_content, Hcontent, Ht, Hfds.
      split_conj; try reflexivity; try assumption.
      * destruct (OS.lookup_path (dir w) name); destruct append; reflexivity.
      * apply Hmoved. exact Hpath.
    + do 2 eexists. split; [reflexivity|].
      cbn -[newline OS.content OS.set_content OS.lookup_path Watched.fileHasMoved].
      rewrite Hcontent, Ht, append_nil_r.
      split_conj; try reflexivity; try assumption.
      * destruct (OS.lookup_path (dir w) name); destruct append; reflexivity.
      * apply Hmoved. exact Hpath.
Qed.

(** ** The pre-write hook of the watched file *)

(** X17: on a handler whose [fp] is nil, as [open] leaves it, the hook
    [onPreWrite] does nothing when the file has not moved.  When it has, the
    hook opens the path on a new descriptor, without closing the old one, and
    captures the new identity, but leaves the handler with a new embedded
    stream handler whose writer is the nil [fp]: every write on it returns
    [ErrInvalid]. *)
Theorem onPreWrite_reopens_with_a_nil_writer
        (h : Watched.WatchedFileHandler) (sh : StreamHandler) (w : World) :
  Watched.SH h = Some sh ->
  Watched.fp h = None ->
  existsb (String.eqb (Watched.filename h)) (denied w) = false ->
  (Watched.fileHasMoved h w = Ret false -> Watched.onPreWrite h w = Ret (h, w))
  /\ (Watched.fileHasMoved h w = Ret true ->
      exists h1 w1 id,
        Watched.onPreWrite h w = Ret (h1, w1)
        /\ OS.lookup_path (dir w) (Watched.filename h) = Some id
        /\ Watched.SH h1 = Some (Stream.NewStreamHandler (WFile None))
        /\ Watched.fp h1 = None
        /\ (Watched.dev h1, Watched.inode h1) = (Watched.uint64 (fst id), snd id)
        /\ fds w1 = (next_fd w, id) :: fds w
        /\ Watched.fileHasMoved h1 w1 = Ret false
        /\ forall msg, Stream.Writer_Write (WFile None) msg w1
                       = Ret (w1, Some ErrInvalid)).
Proof.
  intros Hsh Hfp Hd. split.
  - intro Hm. unfold Watched.onPreWrite. now rewrite Hm.
  - intro Hm. unfold Watched.onPreWrite. rewrite Hm. cbn [bind].
    unfold Watched.close. rewrite Hfp. cbn [bind].
    assert (Hstat : exists id, OS.lookup_path (dir w) (Watched.filename h) = Some id).
    { unfold Watched.fileHasMoved, Watched.statFile, OS.Stat in Hm.
      destruct (OS.lookup_path (dir w) (Watched.filename h)) as [id|];
        [now exists id | discriminate]. }
    destruct Hstat as [id Hid].
    set (flags := if Watched.append h
                  then Z.lor (Z.lor OS.O_WRONLY OS.O_CREATE) OS.O_APPEND
                  else Z.lor (Z.lor OS.O_WRONLY OS.O_CREATE) OS.O_TRUNC).
    assert (Hc : (0 <? Z.land flags OS.O_CREATE)%Z = true)
      by (subst flags; destruct (Watched.append h); reflexivity).
    destruct (OpenFile_allowed w (Watched.filename h) flags Hd Hc)
      as (w1 & Eopen & Hpath & Hfds & _).
    unfold opened_id in Hpath, Hfds. rewrite Hid in Hpath, Hfds.
    unfold Watched.open. fold flags. rewrite Eopen, Hfp.
    cbn [Watched.set_Writer Watched.SH bind Watched.fp Watched.filename
         Watched.append Watched.inode Watched.dev].
    unfold Watched.statFile, OS.Stat. cbn [Watched.filename]. rewrite Hpath.
    destruct id as [d i].
    cbn [OS.Sys bind fst snd Watched.SH Watched.fp Watched.filename
         Watched.append Watched.inode Watched.dev Watched.set_Writer].
    do 2 eexists. exists (d, i). split; [reflexivity|].
    cbn [Watched.SH Watched.fp Watched.dev Watched.inode fst snd].
    split_conj; try reflexivity; try assumption.
    unfold Watched.fileHasMoved, Watched.statFile, OS.Stat.
    cbn [Watched.filename Watched.dev Watched.inode]. rewrite Hpath.
    cbn [OS.Sys bind]. now rewrite !Z.eqb_refl.
Qed.

Lemma onPreWrite_reopens_with_a_nil_writer_witness :
  let h := Watched.mkWatchedFileHandler
             (Some (Stream.NewStreamHandler (WFile (Some 3)))) None "app.log"
             true 10 1 in
  let w := OS.replace_path Sample.disk_open "app.log" (1, 11)%Z in
  Watched.SH h = Some (Stream.NewStreamHandler (WFile (Some 3)))
  /\ Watched.fp h = None
  /\ existsb (String.eqb (Watched.filename h)) (denied w) = false
  /\ (Watched.fileHasMoved h w = Ret false -> Watched.onPreWrite h w = Ret (h, w))
  /\ (Watched.fileHasMoved h w = Ret true ->
      exists h1 w1 id,
        Watched.onPreWrite h w = Ret (h1, w1)
        /\ OS.lookup_path (dir w) (Watched.filename h) = Some id
        /\ Watched.SH h1 = Some (Stream.NewStreamHandler (WFile None))
        /\ Watched.fp h1 = None
        /\ (Watched.dev h1, Watched.inode h1) = (Watched.uint64 (fst id), snd id)
        /\ fds w1 = (next_fd w, id) :: fds w
        /\ Watched.fileHasMoved h1 w1 = Ret false
        /\ forall msg, Stream.Writer_Write (WFile None) msg w1
                       = Ret (w1, Some ErrInvalid)).
Proof.
  cbv zeta. split; [reflexivity|]. split; [reflexivity|]. split; [reflexivity|].
  apply (onPreWrite_reopens_with_a_nil_writer
           (Watched.mkWatchedFileHandler
              (Some (Stream.NewStreamHandler (WFile (Some 3)))) None "app.log"
              true 10 1)
           (Stream.NewStreamHandler (WFile (Some 3)))
           (OS.replace_path Sample.disk_open "app.log" (1, 11)%Z));
    reflexivity.
Defined.
